(** * Growth Mindset app: the state-management core

    A shallow embedding of [growth_mindset.py]: the store ([load_data],
    [save_data]), the metrics ([calculate_streak], [get_weekly_progress]),
    the login step ([authenticate_user]) and the deletion of a journal
    entry in [reflection_journal], with the properties the specification
    states about them.

    Conventions.
    - A [datetime.date] is its proleptic Gregorian ordinal ([toordinal()]),
      a [Z]; a [timedelta] is a number of days.  Comparing two dates and
      subtracting them go through the ordinal in Python as well.
    - [date.today()] reads the clock; every function that calls it takes the
      current day as its argument [today].  Python holds dates from
      [date.min] to [date.max] and raises [OverflowError] beyond; the
      properties of the seven-day window are stated for a window in that
      range.
    - A function that can raise returns [option] (one exception class) or
      [result] (several).
    - A file that the process may open for reading is one it may write:
      the storage has no read-only state, and the properties of a run that
      saves are about the run in which the save goes through. *)

From Stdlib Require Import ZArith Lia Ascii String.
From stdpp Require Import base numbers option list sorting strings gmap.

Local Open Scope Z_scope.

(** ** The part of Python's [datetime] module the program uses *)

Module pydate.

(** [_DAYS_IN_MONTH] and [_DAYS_BEFORE_MONTH]; index 0 is a placeholder. *)
Definition DAYS_IN_MONTH : list Z :=
  [-1; 31; 28; 31; 30; 31; 30; 31; 31; 30; 31; 30; 31].

Definition DAYS_BEFORE_MONTH : list Z :=
  [-1; 0; 31; 59; 90; 120; 151; 181; 212; 243; 273; 304; 334].

Definition table (t : list Z) (i : Z) : Z := nth (Z.to_nat i) t (-1).

Definition MINYEAR : Z := 1.
Definition MAXYEAR : Z := 9999.

Definition is_leap (year : Z) : bool :=
  (year mod 4 =? 0) && (negb (year mod 100 =? 0) || (year mod 400 =? 0)).

Definition days_before_year (year : Z) : Z :=
  let y := year - 1 in
  y * 365 + y / 4 - y / 100 + y / 400.

Definition days_in_month (year month : Z) : Z :=
  if (month =? 2) && is_leap year then 29 else table DAYS_IN_MONTH month.

Definition days_before_month (year month : Z) : Z :=
  table DAYS_BEFORE_MONTH month
  + (if (2 <? month) && is_leap year then 1 else 0).

Definition ymd2ord (year month day : Z) : Z :=
  days_before_year year + days_before_month year month + day.

Definition DI400Y : Z := 146097.
Definition DI100Y : Z := 36524.
Definition DI4Y : Z := 1461.

(** [_ord2ymd]: ordinal to (year, month, day), 01-Jan-0001 being day 1. *)
Definition ord2ymd (ordinal : Z) : Z * Z * Z :=
  let n := ordinal - 1 in
  let n400 := n / DI400Y in
  let n := n mod DI400Y in
  let year := n400 * 400 + 1 in
  let n100 := n / DI100Y in
  let n := n mod DI100Y in
  let n4 := n / DI4Y in
  let n := n mod DI4Y in
  let n1 := n / 365 in
  let n := n mod 365 in
  let year := year + (n100 * 100 + n4 * 4 + n1) in
  if (n1 =? 4) || (n100 =? 4) then (year - 1, 12, 31)
  else
    let leapyear := (n1 =? 3) && (negb (n4 =? 24) || (n100 =? 3)) in
    let month := Z.shiftr (n + 50) 5 in
    let preceding :=
      table DAYS_BEFORE_MONTH month
      + (if (2 <? month) && leapyear then 1 else 0) in
    if n <? preceding then
      let month := month - 1 in
      let preceding :=
        preceding
        - (table DAYS_IN_MONTH month
           + (if (month =? 2) && leapyear then 1 else 0)) in
      (year, month, n - preceding + 1)
    else (year, month, n - preceding + 1).

(** Ordinals of [date.min] and [date.max]. *)
Definition MINORD : Z := 1.
Definition MAXORD : Z := 3652059.

(** ["%0<width>d"] for a number of at most [width] digits: the digits are
    pushed in front of [rest], least significant first. *)
Definition digit_char (d : Z) : ascii := ascii_of_nat (48 + Z.to_nat d).

Fixpoint zero_padded (width : nat) (n : Z) (rest : string) : string :=
  match width with
  | O => rest
  | S w => zero_padded w (n / 10) (String (digit_char (n mod 10)) rest)
  end.

(** [date.isoformat]: ["%04d-%02d-%02d" % (year, month, day)]. *)
Definition isoformat (d : Z) : string :=
  let '(year, month, day) := ord2ymd d in
  zero_padded 4 year
    (String "-" (zero_padded 2 month (String "-" (zero_padded 2 day "")))).

Definition digit_val (c : ascii) : option Z :=
  let n := nat_of_ascii c in
  if ((48 <=? n) && (n <=? 57))%nat then Some (Z.of_nat n - 48) else None.

Fixpoint parse_digits (acc : Z) (cs : list ascii) : option Z :=
  match cs with
  | [] => Some acc
  | c :: cs' => v ← digit_val c; parse_digits (10 * acc + v) cs'
  end.

(** [_check_date_fields]: the range checks of the [date] constructor. *)
Definition check_date_fields (year month day : Z) : bool :=
  (MINYEAR <=? year) && (year <=? MAXYEAR)
  && (1 <=? month) && (month <=? 12)
  && (1 <=? day) && (day <=? days_in_month year month).

(** [date.fromisoformat] on the calendar format [YYYY-MM-DD], the one
    [isoformat] writes and the program stores: [Some d] when the string is
    in that format, and Python reads it as [d].  [None] is a string outside
    that format: Python up to 3.10 raises [ValueError] there, later
    versions also read [YYYYMMDD] and ISO week dates, which this model
    leaves out. *)
Definition fromisoformat (s : string) : option Z :=
  match list_ascii_of_string s with
  | [y1; y2; y3; y4; s1; m1; m2; s2; d1; d2] =>
      if bool_decide (s1 = "-"%char ∧ s2 = "-"%char) then
        year ← parse_digits 0 [y1; y2; y3; y4];
        month ← parse_digits 0 [m1; m2];
        day ← parse_digits 0 [d1; d2];
        if check_date_fields year month day
        then Some (ymd2ord year month day) else None
      else None
  | _ => None
  end.

End pydate.

(** ** Metrics: the streak *)

(** The body of the [for date in reversed(sorted_dates)] loop, on the dates
    still to visit: [continue] goes on with the same state, [break] returns
    the counter. *)
Fixpoint streak_loop (streak : nat) (current_date : Z) (dates : list Z) : nat :=
  match dates with
  | [] => streak
  | date :: rest =>
      if date =? current_date then streak_loop streak current_date rest
      else if current_date - date =? 1 then streak_loop (S streak) date rest
      else streak
  end.

(** [sorted] on dates: Python's sort is a stable merge sort, and on a total
    order without distinct equal elements the sorted list is unique. *)
Definition sorted (l : list Z) : list Z := merge_sort Z.le l.

Definition calculate_streak (today : Z) (dates : list string) : option nat :=
  match dates with
  | [] => Some 0%nat
  | _ =>
      parsed ← mapM pydate.fromisoformat dates;
      Some (streak_loop 1 today (reverse (sorted parsed)))
  end.

(** The streak in the words of the specification, to compare with
    [calculate_streak]: the length of the last contiguous run, walking
    backward from the most recent supplied date, the counter becoming 1 when
    that date is taken. *)
Definition spec_last_run (dates : list Z) : nat :=
  match reverse (sorted dates) with
  | [] => 0%nat
  | newest :: rest => streak_loop 1 newest rest
  end.

(** ** Data model

    The persisted document of [app_data.json].  The program keeps every
    record as a [dict]; the fields are the keys it reads and writes. *)

Record JournalEntry := {
  entry_id : string;
  entry_date : string;
  reflection : string;
  lessons : string;
  mood : string;
  tags : list string;
  entry_user : string
}.

Record ChallengeCompletion := {
  challenge_date : string;
  challenge : string;
  challenge_user : string
}.

Record CommunityPost := {
  post_id : string;
  post_date : string;
  content : string;
  author : string;
  likes : Z
}.

Record UserRecord := { joined : string }.

Record Document := {
  journal_entries : list JournalEntry;
  completed_challenges : list ChallengeCompletion;
  community_posts : list CommunityPost;
  users : gmap string UserRecord
}.

(** ** Store *)

Inductive exception :=
  | FileNotFoundError
  | JSONDecodeError
  | UnicodeDecodeError
  | RecursionError
  | PermissionError.

Inductive result (A : Type) :=
  | Ok (a : A)
  | Raise (e : exception).
Arguments Ok {A} a.
Arguments Raise {A} e.

#[global] Instance result_ret : MRet result := λ A a, Ok a.
#[global] Instance result_bind : MBind result := λ A B f m,
  match m with
  | Ok a => f a
  | Raise e => Raise e
  end.

(** What [DATA_FILE] is on disk: no such file; a text that is not JSON;
    bytes that are not text in the encoding [open] reads with; JSON nested
    deeper than the parser recurses; a file the process may not open; or
    the text [json.dump] wrote for a document ([json.load] gives that
    document back). *)
Inductive storage :=
  | Missing
  | Corrupt
  | Undecodable
  | TooDeep
  | Inaccessible
  | Stored (d : Document).

(** The body of the [try]: [open(DATA_FILE, "r")] and [json.load(f)]. *)
Definition read_json (sto : storage) : result Document :=
  match sto with
  | Missing => Raise FileNotFoundError
  | Corrupt => Raise JSONDecodeError
  | Undecodable => Raise UnicodeDecodeError
  | TooDeep => Raise RecursionError
  | Inaccessible => Raise PermissionError
  | Stored d => Ok d
  end.

Definition empty_document : Document := {|
  journal_entries := [];
  completed_challenges := [];
  community_posts := [];
  users := ∅
|}.

Definition load_data (sto : storage) : result Document :=
  match read_json sto with
  | Ok data => Ok data
  | Raise FileNotFoundError | Raise JSONDecodeError => Ok empty_document
  | Raise e => Raise e
  end.

(** [open(DATA_FILE, "w")] creates or truncates the file. *)
Definition save_data (data : Document) (sto : storage) : result storage :=
  match sto with
  | Inaccessible => Raise PermissionError
  | _ => Ok (Stored data)
  end.

(** ** Metrics: the weekly progress *)

(** [progress[date] += 1] on a [defaultdict(int)]. *)
Definition increment (date : string) (progress : gmap string nat)
  : gmap string nat :=
  <[date := S (default 0%nat (progress !! date))]> progress.

(** The first loop: [for i in range(7)]. *)
Definition last_seven_days (today : Z) : gmap string nat :=
  foldl (λ progress i, <[pydate.isoformat (today - i) := 0%nat]> progress)
        ∅ (seqZ 0 7).

(** The second loop: [for challenge in challenges]. *)
Definition count_challenges (challenges : list ChallengeCompletion)
    (progress : gmap string nat) : gmap string nat :=
  foldl (λ progress c, increment (challenge_date c) progress)
        progress challenges.

Definition get_weekly_progress (today : Z) (sto : storage)
  : result (gmap string nat) :=
  data ← load_data sto;
  let challenges := completed_challenges data in
  Ok (count_challenges challenges (last_seven_days today)).

(** The keys the first loop writes: today and the six days before it. *)
Definition week (today : Z) : list string :=
  (λ i, pydate.isoformat (today - i)) <$> seqZ 0 7.

(** The number of completions that bear [date]. *)
Definition completions_on (date : string)
    (challenges : list ChallengeCompletion) : nat :=
  length (filter (λ c, challenge_date c = date) challenges).

(** ** Authentication *)

(** [st.session_state]: the keys set so far and their values. *)
Abbreviation session_state := (gmap string string).

(** The sidebar widgets of one script run: the text typed in the
    "Username" box and which button, if any, was pressed. *)
Record sidebar := {
  username_input : string;
  login_clicked : bool;
  logout_clicked : bool
}.

(** How a script run leaves the function: [return], or [st.rerun()], which
    abandons the run. *)
Inductive outcome (A : Type) :=
  | Return (a : A)
  | Rerun.
Arguments Return {A} a.
Arguments Rerun {A}.

Definition authenticate_user (today : Z) (ui : sidebar) (sto : storage)
    (ss : session_state)
  : result (storage * session_state * outcome (option string)) :=
  data ← load_data sto;
  match ss !! "authenticated" with
  | None =>
      let username := username_input ui in
      if login_clicked ui then
        if bool_decide (username ≠ "") then
          let ss := <["authenticated" := username]> ss in
          match users data !! username with
          | None =>
              let data := {|
                journal_entries := journal_entries data;
                completed_challenges := completed_challenges data;
                community_posts := community_posts data;
                users := <[username := {| joined := pydate.isoformat today |}]>
                           (users data)
              |} in
              sto ← save_data data sto;
              Ok (sto, ss, Rerun)
          | Some _ => Ok (sto, ss, Rerun)
          end
        else Ok (sto, ss, Return None)
      else Ok (sto, ss, Return None)
  | Some name =>
      if logout_clicked ui then Ok (sto, delete "authenticated" ss, Rerun)
      else Ok (sto, ss, Return (Some name))
  end.

(** A run in which [username] is typed and "Login/Create Account" pressed. *)
Definition login (username : string) (logout : bool) : sidebar := {|
  username_input := username;
  login_clicked := true;
  logout_clicked := logout
|}.

(** The document after [data["users"][username] = {"joined": ...}]. *)
Definition with_user (username : string) (today : Z) (data : Document)
  : Document := {|
  journal_entries := journal_entries data;
  completed_challenges := completed_challenges data;
  community_posts := community_posts data;
  users := <[username := {| joined := pydate.isoformat today |}]> (users data)
|}.

(** ** Reflection journal: deleting an entry *)

(** [[e for e in data["journal_entries"] if e["id"] != entry["id"]]]. *)
Definition delete_journal_entry (id : string) (data : Document) : Document := {|
  journal_entries := filter (λ e, entry_id e ≠ id) (journal_entries data);
  completed_challenges := completed_challenges data;
  community_posts := community_posts data;
  users := users data
|}.

(** The "Delete" button of an entry in [reflection_journal]: the document
    loaded at the top of the run, without the entry, is saved. *)
Definition delete_clicked (id : string) (sto : storage) : result storage :=
  data ← load_data sto;
  save_data (delete_journal_entry id data) sto.

(** A run in which no button of the sidebar is pressed, and one in which
    "Logout" is; [text] is what the username box holds. *)
Definition idle (text : string) : sidebar := {|
  username_input := text;
  login_clicked := false;
  logout_clicked := false
|}.

Definition logout (text : string) : sidebar := {|
  username_input := text;
  login_clicked := false;
  logout_clicked := true
|}.

(** ** Daily challenge *)

Definition DAILY_CHALLENGES : gmap string (list string) :=
  list_to_map [
    ("Beginner", [
       "Reflect on one mistake and what it taught you";
       "Try a new learning method for 30 minutes" ]);
    ("Advanced", [
       "Teach a concept to someone else";
       "Tackle a problem outside your comfort zone" ])
  ].

(** [random.choice(seq)]: the element at a random index below [len(seq)],
    [r] being the number the generator draws; [None] is the [IndexError] on
    an empty sequence. *)
Definition random_choice {A} (r : nat) (seq : list A) : option A :=
  match seq with
  | [] => None
  | _ => seq !! (r mod length seq)%nat
  end.

(** The "Generate New Challenge" button of [daily_challenge];
    [challenge_level] is the value of the select box.  [None] is the
    [KeyError] of the dictionary or the [IndexError] of [random.choice]. *)
Definition generate_challenge (challenge_level : string) (r : nat)
    (ss : session_state) : option session_state :=
  tier ← DAILY_CHALLENGES !! challenge_level;
  challenge ← random_choice r tier;
  Some (<["current_challenge" := challenge]> ss).

(** The "Complete Challenge" button of [daily_challenge], which is on the
    page only when the session holds a current challenge. *)
Definition complete_challenge (today : Z) (username : string) (sto : storage)
    (ss : session_state) : result (storage * session_state * outcome unit) :=
  match ss !! "current_challenge" with
  | None => Ok (sto, ss, Return ())
  | Some current_challenge =>
      data ← load_data sto;
      let data := {|
        journal_entries := journal_entries data;
        completed_challenges :=
          completed_challenges data ++ [{|
            challenge_date := pydate.isoformat today;
            challenge := current_challenge;
            challenge_user := username |}];
        community_posts := community_posts data;
        users := users data
      |} in
      sto ← save_data data sto;
      Ok (sto, delete "current_challenge" ss, Rerun)
  end.

(** The document after [data["completed_challenges"].append(...)]. *)
Definition with_completion (today : Z) (username current_challenge : string)
    (data : Document) : Document := {|
  journal_entries := journal_entries data;
  completed_challenges :=
    completed_challenges data ++ [{|
      challenge_date := pydate.isoformat today;
      challenge := current_challenge;
      challenge_user := username |}];
  community_posts := community_posts data;
  users := users data
|}.

(** ** Progress tracker *)

(** [[c for c in data["completed_challenges"] if c["user"] == username]]. *)
Definition user_challenges (username : string) (data : Document)
  : list ChallengeCompletion :=
  filter (λ c, challenge_user c = username) (completed_challenges data).

(** What [progress_tracker] shows: the two metrics and the chart. *)
Record tracker := {
  total_challenges : nat;
  current_streak : nat;
  weekly_chart : gmap string nat
}.

(** [Ok None]: [calculate_streak] met a stored date outside the calendar
    format (see [pydate.fromisoformat]) and the metrics are not shown. *)
Definition progress_tracker (today : Z) (username : string) (sto : storage)
  : result (option tracker) :=
  data ← load_data sto;
  let user_challenges := user_challenges username data in
  match calculate_streak today (challenge_date <$> user_challenges) with
  | None => Ok None
  | Some streak =>
      progress ← get_weekly_progress today sto;
      Ok (Some {|
        total_challenges := length user_challenges;
        current_streak := streak;
        weekly_chart := progress |})
  end.

(** ** Reflection journal: saving and viewing *)

(** [needle in hay] on strings. *)
Fixpoint contains (needle hay : string) : bool :=
  String.prefix needle hay
  || match hay with
     | EmptyString => false
     | String _ rest => contains needle rest
     end.

(** The fields of the "journal_entry" form. *)
Record journal_form := {
  form_date : Z;
  form_reflection : string;
  form_lessons : string;
  form_mood : string;
  form_tags : list string
}.

(** "Save Entry": [uuid] is the string [uuid.uuid4()] returns. *)
Definition save_entry (uuid : string) (form : journal_form)
    (username : string) (sto : storage) : result storage :=
  data ← load_data sto;
  let new_entry := {|
    entry_id := uuid;
    entry_date := pydate.isoformat (form_date form);
    reflection := form_reflection form;
    lessons := form_lessons form;
    mood := form_mood form;
    tags := form_tags form;
    entry_user := username |} in
  save_data {|
    journal_entries := journal_entries data ++ [new_entry];
    completed_challenges := completed_challenges data;
    community_posts := community_posts data;
    users := users data |} sto.

Section search.

(** [str.lower], which the program applies to both sides of a search. *)
Variable lower : string → string.

(** The entries "View Past Entries" lists (it shows them newest first). *)
Definition filtered_entries (username search_query : string) (data : Document)
  : list JournalEntry :=
  filter (λ e, entry_user e = username
               ∧ (contains (lower search_query) (lower (reflection e))
                  || contains (lower search_query) (lower (lessons e))))
         (journal_entries data).

(** A run of [reflection_journal] in which the button with key
    [del_<id>] is pressed: it deletes if the loop drew that button. *)
Definition delete_button (username search_query id : string) (sto : storage)
  : result storage :=
  data ← load_data sto;
  if bool_decide (id ∈ entry_id <$> filtered_entries username search_query data)
  then save_data (delete_journal_entry id data) sto
  else Ok sto.

(** ** Community wall *)

(** "Post to Community": [now] is [datetime.datetime.now().isoformat()]. *)
Definition post_to_community (uuid now post username : string)
    (sto : storage) : result storage :=
  data ← load_data sto;
  let new_post := {|
    post_id := uuid;
    post_date := now;
    content := post;
    author := username;
    likes := 0 |} in
  save_data {|
    journal_entries := journal_entries data;
    completed_challenges := completed_challenges data;
    community_posts := community_posts data ++ [new_post];
    users := users data |} sto.

(** The button pressed on the wall, by its key: [like_<id>] or [del_<id>]. *)
Inductive wall_button :=
  | LikeButton (id : string)
  | DeleteButton (id : string).

(** Whether the loop body, at [post], draws the pressed button: the post
    passes the search, and a delete button is drawn for the author only. *)
Definition draws (username search_query : string) (button : wall_button)
    (post : CommunityPost) : Prop :=
  contains (lower search_query) (lower (content post))
  ∧ match button with
    | LikeButton id => post_id post = id
    | DeleteButton id => author post = username ∧ post_id post = id
    end.

#[global] Instance draws_dec username search_query button post :
  Decision (draws username search_query button post).
Proof. unfold draws. destruct button; apply _. Defined.

(** [post["likes"] += 1], on the post object the loop holds. *)
Definition liked (post : CommunityPost) : CommunityPost := {|
  post_id := post_id post;
  post_date := post_date post;
  content := content post;
  author := author post;
  likes := likes post + 1
|}.

(** The loop [for post in reversed(data["community_posts"])] with one button
    pressed: the first post that draws it is liked in place, or every post
    with its id is filtered out; then the loop is left by [st.rerun()]. *)
Definition press (username search_query : string) (button : wall_button)
    (posts : list CommunityPost) : list CommunityPost :=
  match list_find (draws username search_query button) (reverse posts) with
  | None => posts
  | Some (i, post) =>
      match button with
      | LikeButton _ => reverse (alter liked i (reverse posts))
      | DeleteButton _ => filter (λ p, post_id p ≠ post_id post) posts
      end
  end.

Definition wall_button_pressed (username search_query : string)
    (button : wall_button) (sto : storage) : result storage :=
  data ← load_data sto;
  match list_find (draws username search_query button)
                  (reverse (community_posts data)) with
  | None => Ok sto
  | Some _ =>
      save_data {|
        journal_entries := journal_entries data;
        completed_challenges := completed_challenges data;
        community_posts :=
          press username search_query button (community_posts data);
        users := users data |} sto
  end.

End search.

(** * Properties *)

(** ** The calendar

    [ord2ymd] is inverted by [ymd2ord]; so two dates that print the same
    are the same date, and [fromisoformat] reads back what [isoformat]
    printed: the premise [fromisoformat s = Some date] of the streak
    properties holds of every string the program stores. *)

(** Names the quotient and the remainder of a division by a constant. *)
Ltac name_divmod a b q r :=
  let Hd := fresh "Hdiv" in
  let Hm := fresh "Hmod" in
  pose proof (Z.div_mod a b ltac:(lia)) as Hd;
  pose proof (Z.mod_pos_bound a b ltac:(lia)) as Hm;
  set (q := a / b) in *; set (r := a mod b) in *; clearbody q r.

Section calendar.

Import pydate.

(** The month estimate of [ord2ymd] and its correction, for the day [n] of
    a year (counted from 0). *)
Lemma month_day_offset (n : Z) (leap : bool) :
  0 ≤ n < 365 →
  let month := Z.shiftr (n + 50) 5 in
  let preceding :=
    table DAYS_BEFORE_MONTH month + (if (2 <? month) && leap then 1 else 0) in
  let ok m d :=
    1 ≤ m ≤ 12
    ∧ 1 ≤ d ≤ table DAYS_IN_MONTH m + (if (m =? 2) && leap then 1 else 0)
    ∧ d ≤ 31
    ∧ table DAYS_BEFORE_MONTH m + (if (2 <? m) && leap then 1 else 0) + d
      = n + 1 in
  if n <? preceding then
    ok (month - 1)
       (n - (preceding
             - (table DAYS_IN_MONTH (month - 1)
                + (if (month - 1 =? 2) && leap then 1 else 0))) + 1)
  else ok month (n - preceding + 1).
Proof.
  intros Hn. cbv zeta beta. rewrite Z.shiftr_div_pow2 by lia.
  change (2 ^ 5) with 32.
  name_divmod (n + 50) 32 m r.
  assert (Hm : m = 1 ∨ m = 2 ∨ m = 3 ∨ m = 4 ∨ m = 5 ∨ m = 6 ∨ m = 7
               ∨ m = 8 ∨ m = 9 ∨ m = 10 ∨ m = 11 ∨ m = 12) by lia.
  destruct leap;
    repeat (destruct Hm as [-> | Hm]); try subst m;
    repeat match goal with
      | |- context [table ?t ?i] =>
          let v := eval vm_compute in (table t i) in
          change (table t i) with v
      end;
    simpl;
    match goal with |- context [?a <? ?b] => destruct (Z.ltb_spec a b) end;
    lia.
Qed.

Lemma is_leap_cycle (q n100 n4 n1 : Z) :
  0 ≤ n100 ≤ 3 → 0 ≤ n4 ≤ 24 → 0 ≤ n1 ≤ 3 →
  is_leap (q * 400 + 1 + (n100 * 100 + n4 * 4 + n1))
  = (n1 =? 3) && (negb (n4 =? 24) || (n100 =? 3)).
Proof.
  intros H100 H4 H1. unfold is_leap.
  repeat match goal with
    | |- context [?a =? ?b] => destruct (Z.eqb_spec a b)
    end; simpl; try reflexivity;
    exfalso; Z.div_mod_to_equations; lia.
Qed.

Lemma days_before_year_cycle (q n100 n4 n1 : Z) :
  0 ≤ n100 ≤ 3 → 0 ≤ n4 ≤ 24 → 0 ≤ n1 ≤ 3 →
  days_before_year (q * 400 + 1 + (n100 * 100 + n4 * 4 + n1))
  = q * DI400Y + n100 * DI100Y + n4 * DI4Y + n1 * 365.
Proof.
  intros H100 H4 H1. unfold days_before_year, DI400Y, DI100Y, DI4Y.
  cbv zeta. Z.div_mod_to_equations. lia.
Qed.

(** The last day of a 4-year or of a 400-year cycle: 31 December of a leap
    year. *)
Ltac december_31 :=
  intros [= <- <- <-];
  unfold ymd2ord, days_before_year, days_before_month, days_in_month, is_leap;
  change (table DAYS_BEFORE_MONTH 12) with 334;
  change (table DAYS_IN_MONTH 12) with 31; cbv zeta;
  repeat match goal with
    | |- context [?a =? ?b] => destruct (Z.eqb_spec a b)
    end; simpl; split_and!; intros;
  Z.div_mod_to_equations; lia.

Lemma ord2ymd_inverse (n y m d : Z) :
  ord2ymd n = (y, m, d) →
  ymd2ord y m d = n ∧ 1 ≤ m ≤ 12 ∧ 1 ≤ d ≤ 31
  ∧ d ≤ days_in_month y m
  ∧ (MINORD ≤ n ≤ MAXORD → MINYEAR ≤ y ≤ MAXYEAR).
Proof.
  unfold ord2ymd. cbv zeta.
  unfold DI400Y, DI100Y, DI4Y, MINORD, MAXORD, MINYEAR, MAXYEAR.
  name_divmod (n - 1) 146097 q r400.
  name_divmod r400 36524 n100 r100.
  name_divmod r100 1461 n4 r4.
  name_divmod r4 365 n1 r1.
  destruct (Z.eqb_spec n1 4) as [Hn1|Hn1];
    [|destruct (Z.eqb_spec n100 4) as [Hn100|Hn100]]; simpl orb; cbv iota.
  - december_31.
  - december_31.
  - pose proof (month_day_offset r1
        ((n1 =? 3) && (negb (n4 =? 24) || (n100 =? 3))) Hmod2) as Hmd.
    cbv zeta beta in Hmd.
    set (leap := (n1 =? 3) && (negb (n4 =? 24) || (n100 =? 3))) in *.
    assert (Hleap :
      is_leap (q * 400 + 1 + (n100 * 100 + n4 * 4 + n1)) = leap)
      by (apply is_leap_cycle; lia).
    assert (Hdays :
      days_before_year (q * 400 + 1 + (n100 * 100 + n4 * 4 + n1))
      = q * 146097 + n100 * 36524 + n4 * 1461 + n1 * 365)
      by (apply days_before_year_cycle; lia).
    clearbody leap.
    match goal with
    | |- context [r1 <? ?p] => destruct (r1 <? p)
    end; intros [= <- <- <-]; destruct Hmd as (Hm & Hd & Hd31 & Hsum);
      unfold ymd2ord, days_before_month, days_in_month;
      rewrite Hleap, Hdays; split_and!; try lia.
    all: match goal with
         | |- context [?m =? 2] =>
             destruct (Z.eqb_spec m 2) as [Hfeb|_];
               [rewrite Hfeb in *; change (table DAYS_IN_MONTH 2) with 28 in *|]
         end; destruct leap; simpl in *; lia.
Qed.

Lemma digit_char_inj (a b : Z) :
  0 ≤ a < 10 → 0 ≤ b < 10 → digit_char a = digit_char b → a = b.
Proof.
  intros Ha Hb Heq. apply (f_equal nat_of_ascii) in Heq.
  unfold digit_char in Heq. rewrite !nat_ascii_embedding in Heq by lia. lia.
Qed.

Lemma zero_padded_inj (width : nat) :
  ∀ (a b : Z) (r r' : string),
    0 ≤ a < 10 ^ Z.of_nat width → 0 ≤ b < 10 ^ Z.of_nat width →
    zero_padded width a r = zero_padded width b r' → a = b ∧ r = r'.
Proof.
  induction width as [|width IH]; intros a b r r' Ha Hb Heq.
  { simpl in *. split; [lia | done]. }
  rewrite Nat2Z.inj_succ, Z.pow_succ_r in Ha, Hb by lia.
  simpl in Heq. apply IH in Heq as [Hdiv [= Hdigit ->]];
    [| Z.div_mod_to_equations; lia ..].
  apply digit_char_inj in Hdigit; [| Z.div_mod_to_equations; lia ..].
  split; [|done]. Z.div_mod_to_equations; lia.
Qed.

Lemma String_tail_inj (c c' : ascii) (s s' : string) :
  String c s = String c' s' → s = s'.
Proof. by intros [= _ ->]. Qed.

Lemma isoformat_inj (a b : Z) :
  MINORD ≤ a ≤ MAXORD → MINORD ≤ b ≤ MAXORD →
  isoformat a = isoformat b → a = b.
Proof.
  intros Ha Hb. unfold isoformat.
  destruct (ord2ymd a) as [[ya ma] da] eqn:Ea.
  destruct (ord2ymd b) as [[yb mb] db] eqn:Eb.
  apply ord2ymd_inverse in Ea as (<- & Hma & Hda & _ & Hya).
  apply ord2ymd_inverse in Eb as (<- & Hmb & Hdb & _ & Hyb).
  specialize (Hya Ha). specialize (Hyb Hb). unfold MINYEAR, MAXYEAR in *.
  intros Heq.
  apply (zero_padded_inj 4) in Heq as [-> Heq%String_tail_inj];
    [| simpl; lia ..].
  apply (zero_padded_inj 2) in Heq as [-> Heq%String_tail_inj];
    [| simpl; lia ..].
  apply (zero_padded_inj 2) in Heq as [-> _]; [| simpl; lia ..].
  done.
Qed.

Lemma digit_val_digit_char (a : Z) :
  0 ≤ a < 10 → digit_val (digit_char a) = Some a.
Proof.
  intros Ha. unfold digit_val, digit_char.
  rewrite nat_ascii_embedding by lia. cbv zeta.
  replace ((48 <=? 48 + Z.to_nat a)%nat && (48 + Z.to_nat a <=? 57)%nat)
    with true.
  - f_equal. lia.
  - symmetry. apply andb_true_iff. split; apply Nat.leb_le; lia.
Qed.

(** A date that [isoformat] printed is read back by [fromisoformat]. *)
Lemma fromisoformat_isoformat (n : Z) :
  MINORD ≤ n ≤ MAXORD → fromisoformat (isoformat n) = Some n.
Proof.
  intros Hn. unfold isoformat.
  destruct (ord2ymd n) as [[y m] d] eqn:Hymd.
  apply ord2ymd_inverse in Hymd as (Hord & Hm & Hd & Hdim & Hy).
  specialize (Hy Hn). unfold MINYEAR, MAXYEAR in Hy.
  unfold fromisoformat. cbn [zero_padded list_ascii_of_string].
  rewrite bool_decide_true by done.
  cbn [parse_digits].
  rewrite !digit_val_digit_char by (apply Z.mod_pos_bound; lia).
  cbn [mbind option_bind].
  replace (10 * (10 * (10 * (10 * 0 + y / 10 / 10 / 10 mod 10)
                       + y / 10 / 10 mod 10) + y / 10 mod 10) + y mod 10)
    with y by (clear -Hy; Z.div_mod_to_equations; lia).
  replace (10 * (10 * 0 + m / 10 mod 10) + m mod 10)
    with m by (clear -Hm; Z.div_mod_to_equations; lia).
  replace (10 * (10 * 0 + d / 10 mod 10) + d mod 10)
    with d by (clear -Hd; Z.div_mod_to_equations; lia).
  replace (check_date_fields y m d) with true; [by rewrite Hord|].
  symmetry. unfold check_date_fields, MINYEAR, MAXYEAR.
  repeat (apply andb_true_iff; split); apply Z.leb_le; lia.
Qed.

End calendar.

(** ** The streak *)

Section streak.

Implicit Types (today date : Z) (streak : nat) (dates parsed : list Z).

Lemma streak_loop_same streak today rest :
  streak_loop streak today (today :: rest) = streak_loop streak today rest.
Proof. simpl. by rewrite Z.eqb_refl. Qed.

Lemma streak_loop_previous streak today date rest :
  today - date = 1 →
  streak_loop streak today (date :: rest) = streak_loop (S streak) date rest.
Proof.
  intros Hgap. simpl.
  destruct (Z.eqb_spec date today) as [->|_]; [lia|].
  by destruct (Z.eqb_spec (today - date) 1).
Qed.

Lemma streak_loop_break streak today date rest :
  date ≠ today → today - date ≠ 1 →
  streak_loop streak today (date :: rest) = streak.
Proof.
  intros Hne Hgap. simpl.
  destruct (Z.eqb_spec date today); [done|].
  by destruct (Z.eqb_spec (today - date) 1).
Qed.

(** The counter never decreases along the scan. *)
Lemma streak_loop_ge dates : ∀ streak today,
  (streak ≤ streak_loop streak today dates)%nat.
Proof.
  induction dates as [|date rest IH]; intros streak today; simpl; [lia|].
  destruct (date =? today); [apply IH|].
  destruct (today - date =? 1); [|lia].
  specialize (IH (S streak) date). lia.
Qed.

Lemma sorted_Permutation parsed : sorted parsed ≡ₚ parsed.
Proof. apply merge_sort_Permutation. Qed.

(** The sorted list is determined by the elements and their multiplicity. *)
Lemma sorted_unique parsed l :
  parsed ≡ₚ l → StronglySorted Z.le l → sorted parsed = l.
Proof.
  intros Hperm Hsorted.
  apply (StronglySorted_unique Z.le); [| done |].
  - apply (StronglySorted_merge_sort Z.le).
  - by rewrite sorted_Permutation.
Qed.

Lemma calculate_streak_parsed today (strs : list string) parsed :
  strs ≠ [] →
  mapM pydate.fromisoformat strs = Some parsed →
  calculate_streak today strs
  = Some (streak_loop 1 today (reverse (sorted parsed))).
Proof.
  intros Hne Hparse. destruct strs as [|s strs]; [done|].
  unfold calculate_streak. by rewrite Hparse.
Qed.

Lemma mapM_singleton (s : string) date :
  pydate.fromisoformat s = Some date →
  mapM pydate.fromisoformat [s] = Some [date].
Proof. intros Hs. apply mapM_Some. by repeat constructor. Qed.

End streak.

(** Rewrites the comparisons of [streak_loop] on dates that differ by a
    known number of days. *)
Ltac scan :=
  unfold reverse; cbn [rev_append];
  repeat first
    [ rewrite streak_loop_same
    | rewrite streak_loop_previous by lia
    | rewrite streak_loop_break by lia ];
  try reflexivity.

(** C1: a list with exactly one date, equal to today, has streak 1, be it
    any string that reads as today or the one [isoformat] prints; a date
    equal to the cursor continues the scan without incrementing. *)
Theorem streak_today_only (today : Z) :
  (∀ s : string,
     pydate.fromisoformat s = Some today →
     calculate_streak today [s] = Some 1%nat)
  ∧ (pydate.MINORD ≤ today ≤ pydate.MAXORD →
     calculate_streak today [pydate.isoformat today] = Some 1%nat)
  ∧ (∀ streak rest,
       streak_loop streak today (today :: rest)
       = streak_loop streak today rest).
Proof.
  assert (Hone : ∀ s : string,
    pydate.fromisoformat s = Some today →
    calculate_streak today [s] = Some 1%nat).
  { intros s Hs.
    rewrite (calculate_streak_parsed today [s] [today]);
      [| done | by apply mapM_singleton].
    rewrite (sorted_unique [today] [today]); [| done | repeat constructor].
    by scan. }
  split_and!.
  - exact Hone.
  - intros Htoday. apply Hone. by apply fromisoformat_isoformat.
  - intros. apply streak_loop_same.
Qed.

Lemma streak_today_only_witness :
  calculate_streak 739924 ["2026-11-04"] = Some 1%nat
  ∧ calculate_streak 739924 [pydate.isoformat 739924] = Some 1%nat.
Proof.
  destruct (streak_today_only 739924) as (Hany & Hprinted & _).
  split.
  - apply Hany. by vm_compute.
  - apply Hprinted. by vm_compute.
Defined.

(** The newest date is the first one the scan visits. *)
Lemma newest_first (parsed : list Z) :
  parsed ≠ [] →
  ∃ newest rest,
    reverse (sorted parsed) = newest :: rest ∧ newest ∈ parsed.
Proof.
  intros Hne.
  assert (Hperm : reverse (sorted parsed) ≡ₚ parsed)
    by (by rewrite reverse_Permutation, sorted_Permutation).
  destruct (reverse (sorted parsed)) as [|newest rest].
  - symmetry in Hperm. by apply Permutation_nil_r in Hperm.
  - exists newest, rest. split; [done|].
    rewrite <- Hperm. by left.
Qed.

Lemma mapM_nonempty (strs : list string) (parsed : list Z) :
  strs ≠ [] → mapM pydate.fromisoformat strs = Some parsed → parsed ≠ [].
Proof.
  intros Hne Hparse ->. apply length_mapM in Hparse.
  by destruct strs.
Qed.

Lemma mapM_Permutation_nonempty (strs : list string) (parsed : list Z) x l :
  mapM pydate.fromisoformat strs = Some parsed → parsed ≡ₚ x :: l → strs ≠ [].
Proof.
  intros Hparse Hperm ->.
  apply length_mapM in Hparse. apply Permutation_length in Hperm.
  simpl in *. lia.
Qed.

(** C2, as the code has it: a non-empty list that holds neither today nor
    yesterday has streak 1, however long its most recent run is.  The
    counter is 1 before any date is visited and the scan stops at the newest
    date. *)
Theorem streak_without_today_or_yesterday
    (today : Z) (strs : list string) (parsed : list Z) :
  strs ≠ [] →
  mapM pydate.fromisoformat strs = Some parsed →
  today ∉ parsed →
  today - 1 ∉ parsed →
  calculate_streak today strs = Some 1%nat.
Proof.
  intros Hne Hparse Htoday Hyesterday.
  rewrite (calculate_streak_parsed today strs parsed) by done.
  destruct (newest_first parsed) as (newest & rest & -> & Hin);
    [by eapply mapM_nonempty|].
  rewrite streak_loop_break; [done| |].
  - by intros ->.
  - intros Hgap. apply Hyesterday.
    by replace (today - 1) with newest by lia.
Qed.

Lemma streak_without_today_or_yesterday_witness :
  calculate_streak 739924 ["2026-10-30"; "2026-10-29"; "2026-10-28"]
  = Some 1%nat.
Proof.
  apply (streak_without_today_or_yesterday 739924 _
           [739919; 739918; 739917]).
  - done.
  - by vm_compute.
  - by intros ?%list_elem_of_In; simpl in *; lia.
  - by intros ?%list_elem_of_In; simpl in *; lia.
Defined.

(** C2, as stated, fails: with three consecutive days that end five days
    ago the most recent run has length 3 and the code returns 1. *)
Lemma streak_last_run_counterexample :
  ¬ (∀ (today : Z) (strs : list string) (parsed : list Z),
       strs ≠ [] →
       mapM pydate.fromisoformat strs = Some parsed →
       today ∉ parsed →
       today - 1 ∉ parsed →
       calculate_streak today strs = Some (spec_last_run parsed)).
Proof.
  intros Hclaim.
  specialize (Hclaim 739924 ["2026-10-30"; "2026-10-29"; "2026-10-28"]
                [739919; 739918; 739917]).
  assert (Hrun : spec_last_run [739919; 739918; 739917] = 3%nat)
    by (by vm_compute).
  assert (Hcode :
    calculate_streak 739924 ["2026-10-30"; "2026-10-29"; "2026-10-28"]
    = Some 1%nat) by (by vm_compute).
  rewrite Hrun, Hcode in Hclaim.
  discriminate Hclaim.
  - done.
  - by vm_compute.
  - by intros ?%list_elem_of_In; simpl in *; lia.
  - by intros ?%list_elem_of_In; simpl in *; lia.
Qed.

(** C3: today, yesterday and the day before, in any order, give 3. *)
Theorem streak_three_days (today : Z) (strs : list string) (parsed : list Z) :
  mapM pydate.fromisoformat strs = Some parsed →
  parsed ≡ₚ [today; today - 1; today - 2] →
  calculate_streak today strs = Some 3%nat.
Proof.
  intros Hparse Hperm.
  assert (Hne : strs ≠ []) by (by eapply mapM_Permutation_nonempty).
  rewrite (calculate_streak_parsed today strs parsed) by done.
  rewrite (sorted_unique parsed [today - 2; today - 1; today]).
  - by scan.
  - rewrite Hperm. by rewrite <- (reverse_Permutation [today; _; _]).
  - repeat constructor; lia.
Qed.

Lemma streak_three_days_witness :
  calculate_streak 739924 ["2026-11-04"; "2026-11-03"; "2026-11-02"]
  = Some 3%nat.
Proof.
  apply (streak_three_days 739924 _ [739924; 739923; 739922]).
  - by vm_compute.
  - done.
Defined.

(** C4: today and the day two days before give 1; whenever the next date is
    more than one day before the cursor the scan returns the counter. *)
Theorem streak_gap (today : Z) (strs : list string) (parsed : list Z) :
  mapM pydate.fromisoformat strs = Some parsed →
  parsed ≡ₚ [today; today - 2] →
  calculate_streak today strs = Some 1%nat
  ∧ ∀ streak current_date date rest,
      1 < current_date - date →
      streak_loop streak current_date (date :: rest) = streak.
Proof.
  intros Hparse Hperm. split.
  - assert (Hne : strs ≠ []) by (by eapply mapM_Permutation_nonempty).
    rewrite (calculate_streak_parsed today strs parsed) by done.
    rewrite (sorted_unique parsed [today - 2; today]).
    + by scan.
    + rewrite Hperm. by rewrite <- (reverse_Permutation [today; _]).
    + repeat constructor; lia.
  - intros streak current_date date rest Hgap.
    apply streak_loop_break; lia.
Qed.

Lemma streak_gap_witness :
  calculate_streak 739924 ["2026-11-04"; "2026-11-02"] = Some 1%nat
  ∧ streak_loop 4 739924 [739921; 739920] = 4%nat.
Proof.
  destruct (streak_gap 739924 ["2026-11-04"; "2026-11-02"] [739924; 739922])
    as [Hcode Hbreak].
  - by vm_compute.
  - done.
  - split; [exact Hcode|]. apply Hbreak. lia.
Defined.

(** C10: on a non-empty list of dates the result is at least 1, whether or
    not today is among them, and a list with only yesterday's date gives 2:
    the counter starts at 1 and the match with yesterday increments it. *)
Theorem streak_at_least_one (today : Z) :
  (∀ (strs : list string) (parsed : list Z),
     strs ≠ [] →
     mapM pydate.fromisoformat strs = Some parsed →
     ∃ n, calculate_streak today strs = Some n ∧ (1 ≤ n)%nat)
  ∧ (∀ s : string,
       pydate.fromisoformat s = Some (today - 1) →
       calculate_streak today [s] = Some 2%nat).
Proof.
  split.
  - intros strs parsed Hne Hparse.
    rewrite (calculate_streak_parsed today strs parsed) by done.
    eexists. split; [done|]. apply streak_loop_ge.
  - intros s Hs.
    rewrite (calculate_streak_parsed today [s] [today - 1]);
      [| done | by apply mapM_singleton].
    rewrite (sorted_unique [today - 1] [today - 1]);
      [| done | repeat constructor].
    by scan.
Qed.

Lemma streak_at_least_one_witness :
  (∃ n, calculate_streak 739924 ["2026-10-01"; "2026-11-03"] = Some n
        ∧ (1 ≤ n)%nat)
  ∧ calculate_streak 739924 ["2026-11-03"] = Some 2%nat.
Proof.
  destruct (streak_at_least_one 739924) as [Hge Hyesterday].
  split.
  - apply (Hge _ [739890; 739923]); [done | by vm_compute].
  - apply Hyesterday. by vm_compute.
Defined.

(** ** The store *)

Lemma load_data_Stored (data : Document) : load_data (Stored data) = Ok data.
Proof. reflexivity. Qed.

(** The exceptions [load_data] lets through. *)
Lemma load_data_Raise (sto : storage) (e : exception) :
  load_data sto = Raise e →
  (sto = Undecodable ∧ e = UnicodeDecodeError)
  ∨ (sto = TooDeep ∧ e = RecursionError)
  ∨ (sto = Inaccessible ∧ e = PermissionError).
Proof. destruct sto; cbv; intros; simplify_eq; auto. Qed.

(** A save that goes through leaves the text of the document. *)
Lemma save_data_Stored (data : Document) (sto sto' : storage) :
  save_data data sto = Ok sto' → sto' = Stored data.
Proof. destruct sto; simpl; intros; by simplify_eq. Qed.

Lemma save_data_Ok (data : Document) (sto : storage) :
  sto ≠ Inaccessible → save_data data sto = Ok (Stored data).
Proof. by destruct sto. Qed.

Lemma load_data_accessible (sto : storage) (data : Document) :
  load_data sto = Ok data → sto ≠ Inaccessible.
Proof. by intros Hload ->. Qed.

(** C5: [load_data] does not recover from every content that fails to
    parse.  On an absent file and on a text that is not JSON it returns the
    empty document, whose four collections are empty; on bytes that are not
    text the read raises [UnicodeDecodeError], which the [except] clause
    does not name, and [load_data] raises it to the caller. *)
Theorem load_data_raises_on_undecodable :
  load_data Undecodable = Raise UnicodeDecodeError
  ∧ load_data Missing = Ok empty_document
  ∧ load_data Corrupt = Ok empty_document
  ∧ journal_entries empty_document = []
  ∧ completed_challenges empty_document = []
  ∧ community_posts empty_document = []
  ∧ users empty_document = ∅.
Proof. by split_and!. Qed.

(** ** Deleting a journal entry *)

Lemma filter_all {A} (P : A → Prop) `{!∀ x, Decision (P x)} (l : list A) :
  (∀ x, x ∈ l → P x) → filter P l = l.
Proof.
  induction l as [|x l IH]; intros HP; [done|].
  rewrite filter_cons_True by (apply HP; by left).
  f_equal. apply IH. intros y Hy. apply HP. by right.
Qed.

(** C9: deleting by id keeps exactly the entries with another id, each
    unchanged and in the same relative order; when one entry has the id,
    that entry alone goes; when none has it, the document is unchanged, and
    the click on a stored document saves without raising. *)
Theorem delete_journal_entry_exact (id : string) (data : Document) :
  let data' := delete_journal_entry id data in
  (∀ e, e ∈ journal_entries data'
        ↔ e ∈ journal_entries data ∧ entry_id e ≠ id)
  ∧ journal_entries data' `sublist_of` journal_entries data
  ∧ (∀ before e after,
       journal_entries data = before ++ e :: after →
       entry_id e = id →
       (∀ x, x ∈ before ++ after → entry_id x ≠ id) →
       journal_entries data' = before ++ after)
  ∧ completed_challenges data' = completed_challenges data
  ∧ community_posts data' = community_posts data
  ∧ users data' = users data
  ∧ ((∀ e, e ∈ journal_entries data → entry_id e ≠ id) →
       data' = data ∧ delete_clicked id (Stored data) = Ok (Stored data))
  ∧ delete_clicked id (Stored data) = Ok (Stored data').
Proof.
  simpl. split_and!; try done.
  - intros e. rewrite list_elem_of_filter. tauto.
  - apply sublist_filter.
  - intros before e after -> Hid Hothers.
    rewrite filter_app, filter_cons_False by (intros Hne; by apply Hne).
    rewrite <- filter_app. by apply filter_all.
  - intros Hnone.
    assert (Hsame : delete_journal_entry id data = data).
    { destruct data as [entries ? ? ?]. unfold delete_journal_entry. simpl.
      f_equal. by apply filter_all. }
    split; [done|]. unfold delete_clicked. simpl. by rewrite Hsame.
Qed.

Lemma delete_journal_entry_exact_witness :
  let entry i text := {|
    entry_id := i; entry_date := "2026-11-04"; reflection := text;
    lessons := ""; mood := "😊"; tags := []; entry_user := "alice" |} in
  journal_entries
    (delete_journal_entry "b" {|
       journal_entries := [entry "a" "one"; entry "b" "two"; entry "c" "three"];
       completed_challenges := []; community_posts := []; users := ∅ |})
  = [entry "a" "one"; entry "c" "three"].
Proof.
  intros entry.
  pose proof (delete_journal_entry_exact "b" {|
    journal_entries := [entry "a" "one"; entry "b" "two"; entry "c" "three"];
    completed_challenges := []; community_posts := []; users := ∅ |})
    as (_ & _ & Hone & _).
  apply (Hone [entry "a" "one"] (entry "b" "two") [entry "c" "three"]).
  - reflexivity.
  - reflexivity.
  - intros x Hx. apply list_elem_of_In in Hx. simpl in Hx.
    destruct Hx as [<- | [<- | []]]; discriminate.
Defined.

(** ** Authentication *)

Section authentication.

Context (today : Z) (sto : storage) (data : Document) (ss : session_state).
Hypothesis Hload : load_data sto = Ok data.

Lemma first_login (username : string) (logout : bool) :
  username ≠ "" →
  ss !! "authenticated" = None →
  users data !! username = None →
  authenticate_user today (login username logout) sto ss
  = Ok (Stored (with_user username today data),
        <["authenticated" := username]> ss, Rerun).
Proof using Hload.
  intros Hname Hsession Hnew. unfold authenticate_user.
  rewrite Hload. simpl. rewrite Hsession. simpl.
  rewrite bool_decide_true by done. rewrite Hnew.
  by rewrite save_data_Ok by (by eapply load_data_accessible).
Qed.

Lemma later_login (username : string) (logout : bool) (record : UserRecord) :
  username ≠ "" →
  ss !! "authenticated" = None →
  users data !! username = Some record →
  authenticate_user today (login username logout) sto ss
  = Ok (sto, <["authenticated" := username]> ss, Rerun).
Proof using Hload.
  intros Hname Hsession Hold. unfold authenticate_user.
  rewrite Hload. simpl. rewrite Hsession. simpl.
  rewrite bool_decide_true by done. by rewrite Hold.
Qed.

(** No run of [authenticate_user], whatever the widgets and the session,
    changes or removes a user record that is stored. *)
Lemma authenticate_user_keeps_users (ui : sidebar) (username : string)
    (record : UserRecord) sto' ss' out :
  users data !! username = Some record →
  authenticate_user today ui sto ss = Ok (sto', ss', out) →
  ∃ data', load_data sto' = Ok data' ∧ users data' !! username = Some record.
Proof using Hload.
  intros Hold. unfold authenticate_user. rewrite Hload. simpl. cbv zeta.
  destruct (ss !! "authenticated") as [name|].
  { destruct (logout_clicked ui); intros; simplify_eq; eauto. }
  destruct (login_clicked ui); [|intros; simplify_eq; eauto].
  case_bool_decide; [|intros; simplify_eq; eauto].
  destruct (users data !! username_input ui) as [other|] eqn:Hother;
    [intros; simplify_eq; eauto|].
  rewrite save_data_Ok by (by eapply load_data_accessible). simpl.
  intros; simplify_eq. eexists. split; [done|]. simpl.
  rewrite lookup_insert_ne; [done|]. intros Heq. congruence.
Qed.

End authentication.

(** C8: logging in twice with the same name keeps the user record of the
    first login: the first run stores a record for the name (the one already
    there, else one joined today), the second run neither saves nor changes
    the stored document, on whatever day it happens. *)
Theorem login_twice_keeps_joined
    (today1 today2 : Z) (username : string) (sto : storage) (data : Document)
    (ss1 ss2 : session_state) (logout1 logout2 : bool) :
  username ≠ "" →
  load_data sto = Ok data →
  ss1 !! "authenticated" = None →
  ss2 !! "authenticated" = None →
  ∃ sto1 data1,
    authenticate_user today1 (login username logout1) sto ss1
    = Ok (sto1, <["authenticated" := username]> ss1, Rerun)
    ∧ load_data sto1 = Ok data1
    ∧ users data1 !! username
      = Some (default {| joined := pydate.isoformat today1 |}
                      (users data !! username))
    ∧ authenticate_user today2 (login username logout2) sto1 ss2
      = Ok (sto1, <["authenticated" := username]> ss2, Rerun).
Proof.
  intros Hname Hload Hss1 Hss2.
  destruct (users data !! username) as [record|] eqn:Hlookup.
  - exists sto, data. split_and!; [|done|done|]; by eapply later_login.
  - exists (Stored (with_user username today1 data)),
           (with_user username today1 data).
    split_and!.
    + by apply first_login.
    + done.
    + simpl. by rewrite lookup_insert_eq.
    + eapply later_login; [done|done|done|].
      simpl. by rewrite lookup_insert_eq.
Qed.

Lemma login_twice_keeps_joined_witness :
  ∃ sto1 data1,
    authenticate_user 739924 (login "alice" false) Missing ∅
    = Ok (sto1, {["authenticated" := "alice"]}, Rerun)
    ∧ load_data sto1 = Ok data1
    ∧ users data1 !! "alice" = Some {| joined := "2026-11-04" |}
    ∧ authenticate_user 739930 (login "alice" false) sto1 ∅
      = Ok (sto1, {["authenticated" := "alice"]}, Rerun).
Proof.
  destruct (login_twice_keeps_joined 739924 739930 "alice" Missing
              empty_document ∅ ∅ false false)
    as (sto1 & data1 & Hfirst & Hload & Hrecord & Hsecond);
    [done | done | done | done |].
  exists sto1, data1. split_and!.
  - by rewrite Hfirst, insert_empty.
  - done.
  - by rewrite Hrecord.
  - by rewrite Hsecond, insert_empty.
Defined.

(** ** The weekly progress *)

Lemma lookup_increment (date k : string) (progress : gmap string nat) :
  increment date progress !! k
  = if decide (k = date) then Some (S (default 0%nat (progress !! date)))
    else progress !! k.
Proof.
  unfold increment. case_decide as Hk.
  - subst k. apply lookup_insert_eq.
  - by apply lookup_insert_ne.
Qed.

(** A loop that sets keys to 0, read at [k]. *)
Lemma lookup_foldl_zero {A} (key : A → string) (l : list A) :
  ∀ (progress : gmap string nat) (k : string),
    foldl (λ progress i, <[key i := 0%nat]> progress) progress l !! k
    = if decide (k ∈ key <$> l) then Some 0%nat else progress !! k.
Proof.
  induction l as [|i l IH]; intros progress k; [done|].
  cbn [foldl]. rewrite IH, fmap_cons, (lookup_insert progress).
  destruct (decide (k ∈ key <$> l)) as [Hin|Hnotin].
  { rewrite decide_True; [done | by right]. }
  destruct (decide (key i = k)) as [<-|Hne].
  - rewrite decide_True; [done | by left].
  - rewrite decide_False; [done|].
    rewrite elem_of_cons. by intros [-> | Hin].
Qed.

Lemma lookup_last_seven_days (today : Z) (k : string) :
  last_seven_days today !! k
  = if decide (k ∈ week today) then Some 0%nat else None.
Proof.
  unfold last_seven_days, week.
  by rewrite (lookup_foldl_zero (λ i, pydate.isoformat (today - i))).
Qed.

Lemma completions_on_cons (date : string) c challenges :
  completions_on date (c :: challenges)
  = ((if decide (challenge_date c = date) then 1 else 0)
     + completions_on date challenges)%nat.
Proof.
  unfold completions_on. case_decide.
  - by rewrite filter_cons_True.
  - by rewrite filter_cons_False.
Qed.

Lemma completions_on_zero (date : string) challenges :
  completions_on date challenges = 0%nat
  ↔ date ∉ challenge_date <$> challenges.
Proof.
  induction challenges as [|c challenges IH].
  { split; [intros _ Hin; by apply elem_of_nil in Hin | done]. }
  rewrite completions_on_cons, fmap_cons, not_elem_of_cons, <- IH.
  case_decide as Hdate.
  - split; [lia | by intros [Hne _]].
  - split; [by intros | by intros [_ ->]].
Qed.

(** The counting loop, read at [k]. *)
Lemma lookup_count_challenges challenges :
  ∀ (progress : gmap string nat) (k : string),
    count_challenges challenges progress !! k
    = if decide (completions_on k challenges = 0%nat) then progress !! k
      else Some (default 0%nat (progress !! k)
                 + completions_on k challenges)%nat.
Proof.
  induction challenges as [|c challenges IH]; intros progress k.
  { by rewrite decide_True. }
  change (count_challenges (c :: challenges) progress)
    with (count_challenges challenges (increment (challenge_date c) progress)).
  rewrite IH, lookup_increment, completions_on_cons.
  destruct (decide (k = challenge_date c)) as [->|Hk].
  - rewrite !(decide_True (P := challenge_date c = challenge_date c)) by done.
    repeat case_decide; try lia; simpl; f_equal; lia.
  - rewrite (decide_False (P := challenge_date c = k)) by done.
    by repeat case_decide.
Qed.

(** C7: the result maps every date of the seven-day window, and every date
    a completion bears, to the number of completions that bear it, and has
    no other key.  So two completions on one date give 2 there, a window
    date without completion stays 0, and a date outside the window is a
    key of the result. *)
Theorem weekly_progress_counts (today : Z) (sto : storage) (data : Document) :
  load_data sto = Ok data →
  ∃ progress,
    get_weekly_progress today sto = Ok progress
    ∧ ∀ date,
        progress !! date
        = if decide (date ∈ week today
                     ∨ date ∈ challenge_date <$> completed_challenges data)
          then Some (completions_on date (completed_challenges data))
          else None.
Proof.
  intros Hload. unfold get_weekly_progress. rewrite Hload. simpl.
  eexists. split; [done|]. intros date.
  rewrite lookup_count_challenges, lookup_last_seven_days.
  pose proof (completions_on_zero date (completed_challenges data)) as Hzero.
  repeat case_decide; try done; try tauto.
  congruence.
Qed.

Lemma weekly_progress_counts_witness :
  let done_on date :=
    {| challenge_date := date; challenge := "Teach a concept to someone else";
       challenge_user := "alice" |} in
  ∃ progress,
    get_weekly_progress 739924 (Stored {|
      journal_entries := [];
      completed_challenges :=
        [done_on "2026-11-03"; done_on "2020-01-01"; done_on "2026-11-03"];
      community_posts := [];
      users := ∅ |}) = Ok progress
    ∧ progress !! "2026-11-03" = Some 2%nat
    ∧ progress !! "2026-11-04" = Some 0%nat
    ∧ progress !! "2020-01-01" = Some 1%nat
    ∧ progress !! "2020-01-02" = None.
Proof.
  intros done_on.
  edestruct (weekly_progress_counts 739924) as (progress & Hrun & Hlookup);
    [apply load_data_Stored|].
  exists progress. split; [exact Hrun|].
  rewrite !Hlookup. by vm_compute.
Defined.

(** The seven days of the window print differently. *)
Lemma NoDup_week (today : Z) :
  pydate.MINORD + 6 ≤ today ≤ pydate.MAXORD → NoDup (week today).
Proof.
  intros Htoday. unfold week.
  apply NoDup_fmap_2_strong; [|apply NoDup_seqZ].
  intros i j Hi%elem_of_seqZ Hj%elem_of_seqZ Heq.
  apply isoformat_inj in Heq; lia.
Qed.

Lemma elem_of_week (today : Z) (date : string) :
  date ∈ week today ↔ ∃ i, 0 ≤ i < 7 ∧ date = pydate.isoformat (today - i).
Proof.
  unfold week. rewrite list_elem_of_fmap.
  split; intros (i & Hi & Hdate); exists i.
  - apply elem_of_seqZ in Hdate. split; [lia | done].
  - split; [done|]. apply elem_of_seqZ. lia.
Qed.

(** C6: with no stored completion the result has exactly seven keys, the
    dates of today and of the six days before it, and each maps to 0. *)
Theorem weekly_progress_empty (today : Z) (sto : storage) (data : Document) :
  pydate.MINORD + 6 ≤ today ≤ pydate.MAXORD →
  load_data sto = Ok data →
  completed_challenges data = [] →
  ∃ progress,
    get_weekly_progress today sto = Ok progress
    ∧ size progress = 7%nat
    ∧ (∀ date, is_Some (progress !! date)
               ↔ ∃ i, 0 ≤ i < 7 ∧ date = pydate.isoformat (today - i))
    ∧ (∀ date n, progress !! date = Some n → n = 0%nat).
Proof.
  intros Htoday Hload Hnone. unfold get_weekly_progress.
  rewrite Hload. simpl. rewrite Hnone. exists (last_seven_days today).
  split_and!; [done| | |].
  - rewrite <- size_dom.
    assert (Hdom : dom (last_seven_days today) = list_to_set (week today)).
    { apply set_eq. intros date.
      rewrite elem_of_dom, elem_of_list_to_set, lookup_last_seven_days.
      case_decide; [by split | split; [by intros [? ?] | done]]. }
    rewrite Hdom, size_list_to_set by (by apply NoDup_week).
    unfold week. by rewrite length_fmap, length_seqZ.
  - intros date. rewrite <- elem_of_week, lookup_last_seven_days.
    case_decide; [by split | split; [by intros [? ?] | done]].
  - intros date n. rewrite lookup_last_seven_days.
    case_decide; congruence.
Qed.

Lemma weekly_progress_empty_witness :
  ∃ progress,
    get_weekly_progress 739924 Missing = Ok progress
    ∧ size progress = 7%nat
    ∧ progress !! "2026-11-04" = Some 0%nat
    ∧ progress !! "2026-10-29" = Some 0%nat
    ∧ progress !! "2026-10-28" = None.
Proof.
  destruct (weekly_progress_empty 739924 Missing empty_document)
    as (progress & Hrun & Hsize & Hkeys & Hzero);
    [by vm_compute | done | done |].
  exists progress. split_and!; [done | done | | |].
  - destruct (proj2 (Hkeys "2026-11-04")) as [n Hn].
    { exists 0. split; [lia | by vm_compute]. }
    by rewrite Hn, (Hzero _ _ Hn).
  - destruct (proj2 (Hkeys "2026-10-29")) as [n Hn].
    { exists 6. split; [lia | by vm_compute]. }
    by rewrite Hn, (Hzero _ _ Hn).
  - apply eq_None_not_Some. intros (i & Hi & Hdate)%Hkeys.
    assert (Hcases : i = 0 ∨ i = 1 ∨ i = 2 ∨ i = 3 ∨ i = 4 ∨ i = 5 ∨ i = 6)
      by lia.
    destruct Hcases as [-> | [-> | [-> | [-> | [-> | [-> | ->]]]]]];
      vm_compute in Hdate; discriminate.
Defined.

(** ** The streak in closed form *)

Lemma StronglySorted_reverse {A} (R : relation A) (l : list A) :
  StronglySorted R l → StronglySorted (flip R) (reverse l).
Proof.
  induction 1 as [|x l Hsorted IH Hall]; [apply SSorted_nil|].
  rewrite reverse_cons. apply StronglySorted_app_2; [|done|repeat constructor].
  intros y z Hy Hz. rewrite elem_of_reverse in Hy.
  apply list_elem_of_singleton in Hz. subst z.
  unfold flip. rewrite list.Forall_forall in Hall. by apply Hall.
Qed.

(** The scan visits the dates from the newest to the oldest. *)
Lemma reverse_sorted_descending (parsed : list Z) :
  StronglySorted (flip Z.le) (reverse (sorted parsed)).
Proof. apply StronglySorted_reverse, (StronglySorted_merge_sort Z.le). Qed.

Lemma elem_of_reverse_sorted (parsed : list Z) (date : Z) :
  date ∈ reverse (sorted parsed) ↔ date ∈ parsed.
Proof. by rewrite elem_of_reverse, sorted_Permutation. Qed.

(** On dates in descending order, none after the cursor, the scan adds the
    length of the run of consecutive days that ends the day before the
    cursor. *)
Lemma streak_loop_run (dates : list Z) :
  ∀ (streak : nat) (current_date : Z) (k : nat),
    StronglySorted (flip Z.le) dates →
    Forall (λ date, date ≤ current_date) dates →
    (∀ i, 1 ≤ i ≤ Z.of_nat k → current_date - i ∈ dates) →
    current_date - (Z.of_nat k + 1) ∉ dates →
    streak_loop streak current_date dates = (streak + k)%nat.
Proof.
  induction dates as [|date rest IH];
    intros streak current k Hsorted Hbound Hrun Hend.
  { destruct k as [|k]; [simpl; lia|].
    specialize (Hrun 1 ltac:(lia)). by apply elem_of_nil in Hrun. }
  apply StronglySorted_cons in Hsorted as [Hrest Hsorted].
  apply Forall_cons in Hbound as [Hdate Hbound].
  assert (Hlower : ∀ x, x ∈ rest → x ≤ date).
  { intros x Hx. rewrite list.Forall_forall in Hrest. by apply Hrest. }
  destruct (decide (date = current)) as [->|Hne].
  - rewrite streak_loop_same. apply IH; [done|done| |].
    + intros i Hi. specialize (Hrun i Hi).
      apply elem_of_cons in Hrun as [Heq|Hin]; [lia|done].
    + intros Hin. apply Hend. by right.
  - destruct (decide (current - date = 1)) as [Hgap|Hgap].
    + rewrite streak_loop_previous by done.
      destruct k as [|k].
      { exfalso. apply Hend.
        replace (current - (Z.of_nat 0 + 1)) with date by lia.
        by left. }
      rewrite (IH (S streak) date k); [lia|done| | |].
      * apply list.Forall_forall. intros x Hx. by apply Hlower.
      * intros i Hi. specialize (Hrun (i + 1) ltac:(lia)).
        replace (current - (i + 1)) with (date - i) in Hrun by lia.
        apply elem_of_cons in Hrun as [Heq|Hin]; [lia|done].
      * intros Hin. apply Hend.
        replace (current - (Z.of_nat (S k) + 1))
          with (date - (Z.of_nat k + 1)) by lia.
        by right.
    + rewrite streak_loop_break by done.
      destruct k as [|k]; [lia|]. exfalso.
      specialize (Hrun 1 ltac:(lia)).
      apply elem_of_cons in Hrun as [Heq|Hin]; [lia|].
      apply Hlower in Hin. lia.
Qed.

(** Every list has a run of consecutive days before [day] that ends. *)
Lemma run_before_exists (dates : list Z) (day : Z) :
  ∃ k : nat,
    (∀ i, 1 ≤ i ≤ Z.of_nat k → day - i ∈ dates)
    ∧ day - (Z.of_nat k + 1) ∉ dates.
Proof.
  assert (Hlow : ∃ low, ∀ x, x ∈ dates → low ≤ x).
  { induction dates as [|x l [low Hlow]];
      [by exists 0; intros ? ?%elem_of_nil|].
    exists (Z.min low x). intros y [->|Hy]%elem_of_cons; [lia|].
    apply Hlow in Hy. lia. }
  destruct Hlow as [low Hlow].
  assert (Hsearch : ∀ n : nat,
    (∃ k : nat, (∀ i, 1 ≤ i ≤ Z.of_nat k → day - i ∈ dates)
                ∧ day - (Z.of_nat k + 1) ∉ dates)
    ∨ (∀ i, 1 ≤ i ≤ Z.of_nat n → day - i ∈ dates)).
  { induction n as [|n [Hfound|Hall]]; [right; lia | by left |].
    destruct (decide (day - (Z.of_nat n + 1) ∈ dates)) as [Hin|Hout].
    - right. intros i Hi.
      destruct (decide (i = Z.of_nat n + 1)) as [->|]; [done|].
      apply Hall. lia.
    - left. by exists n. }
  destruct (Hsearch (Z.to_nat (Z.max 0 (day - low)) + 1)%nat)
    as [Hfound|Hall]; [done|].
  specialize (Hall (Z.max 0 (day - low) + 1) ltac:(lia)).
  apply Hlow in Hall. lia.
Qed.

Lemma calculate_streak_zero (today : Z) (strs : list string) :
  calculate_streak today strs = Some 0%nat ↔ strs = [].
Proof.
  destruct strs as [|s strs]; [done|]. split; [|done].
  unfold calculate_streak.
  destruct (mapM pydate.fromisoformat (s :: strs)) as [parsed|]; [|done].
  simpl. intros [= Hzero].
  pose proof (streak_loop_ge (reverse (sorted parsed)) 1 today). lia.
Qed.

(** X1: [calculate_streak] returns 0 on the empty list and on no other
    list: whenever it returns on a non-empty list, the result is at least
    1. *)
Theorem calculate_streak_zero_iff_empty (today : Z) (strs : list string) :
  (calculate_streak today strs = Some 0%nat ↔ strs = [])
  ∧ ∀ n, strs ≠ [] → calculate_streak today strs = Some n → (1 ≤ n)%nat.
Proof.
  split; [apply calculate_streak_zero|].
  intros n Hne Hn. destruct n as [|n]; [|lia].
  by apply calculate_streak_zero in Hn.
Qed.

Lemma calculate_streak_zero_iff_empty_witness :
  calculate_streak 739924 [] = Some 0%nat
  ∧ calculate_streak 739924 ["2026-11-03"] ≠ Some 0%nat.
Proof.
  split.
  - by apply (calculate_streak_zero_iff_empty 739924 []).
  - destruct (calculate_streak_zero_iff_empty 739924 ["2026-11-03"])
      as [Hiff _].
    intros Hzero. by apply Hiff in Hzero.
Defined.

(** The scan stops at once when the newest date is after today. *)
Lemma scan_future (today : Z) (parsed : list Z) (date : Z) :
  date ∈ parsed →
  today < date →
  streak_loop 1 today (reverse (sorted parsed)) = 1%nat.
Proof.
  intros Hin Hfuture.
  pose proof (reverse_sorted_descending parsed) as Hsorted.
  apply elem_of_reverse_sorted in Hin.
  destruct (reverse (sorted parsed)) as [|newest rest];
    [by apply elem_of_nil in Hin|].
  apply StronglySorted_cons in Hsorted as [Hrest _].
  assert (Hnewest : date ≤ newest).
  { apply elem_of_cons in Hin as [->|Hin]; [lia|].
    rewrite list.Forall_forall in Hrest. by apply Hrest. }
  rewrite streak_loop_break; [done | lia | lia].
Qed.

Lemma mapM_elem_nonempty (strs : list string) (parsed : list Z) (date : Z) :
  mapM pydate.fromisoformat strs = Some parsed → date ∈ parsed → strs ≠ [].
Proof.
  intros Hparse Hin ->. apply length_mapM in Hparse.
  destruct parsed; [by apply elem_of_nil in Hin | done].
Qed.

Lemma future_date_stops (today : Z) (strs : list string) (parsed : list Z)
    (date : Z) :
  mapM pydate.fromisoformat strs = Some parsed →
  date ∈ parsed →
  today < date →
  calculate_streak today strs = Some 1%nat.
Proof.
  intros Hparse Hin Hfuture.
  rewrite (calculate_streak_parsed today strs parsed);
    [| by eapply mapM_elem_nonempty | done].
  by rewrite (scan_future today parsed date).
Qed.

(** X2: A date after today, anywhere in the list, makes the streak 1: the
    newest date is visited first and stops the scan. *)
Theorem streak_future_date (today : Z) (strs : list string) (parsed : list Z)
    (date : Z) :
  mapM pydate.fromisoformat strs = Some parsed →
  date ∈ parsed →
  today < date →
  calculate_streak today strs = Some 1%nat.
Proof.
  intros Hparse Hin Hfuture.
  assert (Hne : strs ≠ []) by (by eapply mapM_elem_nonempty).
  rewrite (calculate_streak_parsed today strs parsed) by done.
  f_equal. by apply (scan_future today parsed date).
Qed.

Lemma streak_future_date_witness :
  calculate_streak 739924 ["2026-11-03"; "2026-11-06"; "2026-11-04"]
  = Some 1%nat.
Proof.
  apply (streak_future_date 739924 _ [739923; 739926; 739924] 739926).
  - by vm_compute.
  - by apply list_elem_of_In; simpl; auto.
  - lia.
Defined.

(** The scan counts the run of consecutive days before today. *)
Lemma scan_run (today : Z) (parsed : list Z) (k : nat) :
  (∀ date, date ∈ parsed → date ≤ today) →
  (∀ i, 1 ≤ i ≤ Z.of_nat k → today - i ∈ parsed) →
  today - (Z.of_nat k + 1) ∉ parsed →
  streak_loop 1 today (reverse (sorted parsed)) = S k.
Proof.
  intros Hpast Hrun Hend.
  rewrite (streak_loop_run _ 1 today k); [done| | | |].
  - apply reverse_sorted_descending.
  - apply list.Forall_forall. intros date Hin.
    by apply Hpast, elem_of_reverse_sorted.
  - intros i Hi. by apply elem_of_reverse_sorted, Hrun.
  - by rewrite elem_of_reverse_sorted.
Qed.

Lemma run_counted (today : Z) (strs : list string) (parsed : list Z)
    (k : nat) :
  strs ≠ [] →
  mapM pydate.fromisoformat strs = Some parsed →
  (∀ date, date ∈ parsed → date ≤ today) →
  (∀ i, 1 ≤ i ≤ Z.of_nat k → today - i ∈ parsed) →
  today - (Z.of_nat k + 1) ∉ parsed →
  calculate_streak today strs = Some (S k).
Proof.
  intros Hne Hparse Hpast Hrun Hend.
  rewrite (calculate_streak_parsed today strs parsed) by done.
  by rewrite (scan_run today parsed k).
Qed.

(** X3: With no date after today, the streak is one more than the number of
    consecutive days, ending yesterday, that the list holds; whether today
    is in the list makes no difference. *)
Theorem streak_counts_run (today : Z) (strs : list string) (parsed : list Z)
    (k : nat) :
  strs ≠ [] →
  mapM pydate.fromisoformat strs = Some parsed →
  (∀ date, date ∈ parsed → date ≤ today) →
  (∀ i, 1 ≤ i ≤ Z.of_nat k → today - i ∈ parsed) →
  today - (Z.of_nat k + 1) ∉ parsed →
  calculate_streak today strs = Some (S k).
Proof.
  intros Hne Hparse Hpast Hrun Hend.
  rewrite (calculate_streak_parsed today strs parsed) by done.
  f_equal. apply (scan_run today parsed k); [done | done |].
  intros Hin. by apply Hend.
Qed.

Lemma streak_counts_run_witness :
  calculate_streak 739924
    ["2026-11-02"; "2026-11-03"; "2026-10-31"; "2026-11-03"]
  = Some 3%nat.
Proof.
  apply (streak_counts_run 739924 _ [739922; 739923; 739920; 739923] 2).
  - done.
  - by vm_compute.
  - intros date Hin%list_elem_of_In. simpl in Hin. lia.
  - intros i Hi. apply list_elem_of_In. simpl. lia.
  - intros Hin%list_elem_of_In. simpl in Hin. lia.
Defined.

(** X4: The streak depends on which dates the list holds, not on their order
    nor on how often each occurs. *)
Theorem streak_same_dates (today : Z) (strs1 strs2 : list string)
    (parsed1 parsed2 : list Z) :
  strs1 ≠ [] →
  mapM pydate.fromisoformat strs1 = Some parsed1 →
  mapM pydate.fromisoformat strs2 = Some parsed2 →
  (∀ date, date ∈ parsed1 ↔ date ∈ parsed2) →
  calculate_streak today strs1 = calculate_streak today strs2.
Proof.
  intros Hne1 Hparse1 Hparse2 Hsame.
  assert (Hne2 : strs2 ≠ []).
  { intros ->. apply length_mapM in Hparse2. destruct parsed2; [|done].
    pose proof (mapM_nonempty strs1 parsed1 Hne1 Hparse1) as Hne.
    destruct parsed1 as [|date l]; [done|].
    specialize (Hsame date). rewrite elem_of_nil in Hsame.
    apply Hsame. by left. }
  destruct (decide (Exists (λ date, today < date) parsed1)) as [Hfuture|Hpast].
  - apply Exists_exists in Hfuture as (date & Hin & Hlt).
    simpl in Hlt.
    rewrite (future_date_stops today strs1 parsed1 date Hparse1 Hin Hlt).
    assert (Hin2 : date ∈ parsed2) by (by apply Hsame).
    by rewrite (future_date_stops today strs2 parsed2 date Hparse2 Hin2 Hlt).
  - apply not_Exists_Forall in Hpast; [|intros; apply _].
    rewrite list.Forall_forall in Hpast.
    destruct (run_before_exists parsed1 today) as (k & Hrun & Hend).
    rewrite (run_counted today strs1 parsed1 k),
            (run_counted today strs2 parsed2 k); try done.
    + intros date Hin%Hsame. specialize (Hpast date Hin). simpl in Hpast. lia.
    + intros i Hi. by apply Hsame, Hrun.
    + by rewrite <- Hsame.
    + intros date Hin. specialize (Hpast date Hin). simpl in Hpast. lia.
Qed.

Lemma streak_same_dates_witness :
  calculate_streak 739924 ["2026-11-03"; "2026-11-04"; "2026-11-03"]
  = calculate_streak 739924 ["2026-11-04"; "2026-11-03"].
Proof.
  apply (streak_same_dates 739924 _ _ [739923; 739924; 739923]
           [739924; 739923]).
  - done.
  - by vm_compute.
  - by vm_compute.
  - intros date. rewrite !list_elem_of_In. simpl. lia.
Defined.

(** ** Challenges and the progress tracker *)

Lemma random_choice_elem_of {A} (r : nat) (seq : list A) :
  seq ≠ [] → ∃ x, random_choice r seq = Some x ∧ x ∈ seq.
Proof.
  intros Hne. destruct seq as [|y seq]; [done|]. unfold random_choice.
  destruct (lookup_lt_is_Some_2 (y :: seq) (r mod length (y :: seq))%nat)
    as [x Hx].
  { apply Nat.mod_upper_bound. simpl. lia. }
  exists x. split; [done|]. by eapply list_elem_of_lookup_2.
Qed.

Lemma DAILY_CHALLENGES_nonempty :
  map_Forall (λ _ tier, tier ≠ []) DAILY_CHALLENGES.
Proof. apply (bool_decide_unpack _). by vm_compute. Qed.

(** X5: For a level of the catalog, "Generate New Challenge" never raises:
    it stores one of the challenges of that level as the current challenge
    and leaves the other keys of the session alone. *)
Theorem generate_challenge_from_level (challenge_level : string) (r : nat)
    (ss : session_state) (tier : list string) :
  DAILY_CHALLENGES !! challenge_level = Some tier →
  ∃ challenge,
    challenge ∈ tier
    ∧ generate_challenge challenge_level r ss
      = Some (<["current_challenge" := challenge]> ss).
Proof.
  intros Htier. unfold generate_challenge. rewrite Htier. simpl.
  destruct (random_choice_elem_of r tier) as (challenge & Hchoice & Hin).
  { by apply (DAILY_CHALLENGES_nonempty challenge_level). }
  exists challenge. split; [done|]. by rewrite Hchoice.
Qed.

Lemma generate_challenge_from_level_witness :
  ∃ challenge,
    challenge ∈ ["Teach a concept to someone else";
                 "Tackle a problem outside your comfort zone"]
    ∧ generate_challenge "Advanced" 7 ∅
      = Some {["current_challenge" := challenge]}.
Proof.
  destruct (generate_challenge_from_level "Advanced" 7 ∅
              ["Teach a concept to someone else";
               "Tackle a problem outside your comfort zone"])
    as (challenge & Hin & Hrun); [by vm_compute|].
  exists challenge. split; [done|]. by rewrite Hrun, insert_empty.
Defined.

Lemma complete_challenge_stored (today : Z) (username current : string)
    (sto : storage) (data : Document) (ss : session_state) :
  load_data sto = Ok data →
  ss !! "current_challenge" = Some current →
  complete_challenge today username sto ss
  = Ok (Stored (with_completion today username current data),
        delete "current_challenge" ss, Rerun).
Proof.
  intros Hload Hcurrent. unfold complete_challenge.
  rewrite Hcurrent, Hload. simpl.
  by rewrite save_data_Ok by (by eapply load_data_accessible).
Qed.

Lemma user_challenges_with_completion (today : Z) (username current v : string)
    (data : Document) :
  user_challenges v (with_completion today username current data)
  = user_challenges v data
    ++ (if decide (v = username)
        then [{| challenge_date := pydate.isoformat today;
                 challenge := current;
                 challenge_user := username |}]
        else []).
Proof.
  unfold user_challenges. simpl. rewrite filter_app. f_equal.
  case_decide as Hv.
  - subst v. by rewrite filter_cons_True.
  - by rewrite filter_cons_False by (simpl; congruence).
Qed.

(** X6: "Complete Challenge" appends one record for the user: the user's
    total grows by one, the totals of the other users and the other
    collections stay, and the current challenge leaves the session. *)
Theorem completion_counted (today : Z) (username current : string)
    (sto : storage) (data : Document) (ss : session_state) :
  load_data sto = Ok data →
  ss !! "current_challenge" = Some current →
  ∃ sto' data',
    complete_challenge today username sto ss
    = Ok (sto', delete "current_challenge" ss, Rerun)
    ∧ load_data sto' = Ok data'
    ∧ (∀ v, length (user_challenges v data')
            = (length (user_challenges v data)
               + (if decide (v = username) then 1 else 0))%nat)
    ∧ completed_challenges data'
      = completed_challenges data
        ++ [{| challenge_date := pydate.isoformat today;
               challenge := current;
               challenge_user := username |}]
    ∧ journal_entries data' = journal_entries data
    ∧ community_posts data' = community_posts data
    ∧ users data' = users data.
Proof.
  intros Hload Hcurrent.
  exists (Stored (with_completion today username current data)),
         (with_completion today username current data).
  split_and!; try done.
  - by apply complete_challenge_stored.
  - intros v. rewrite user_challenges_with_completion, length_app.
    by case_decide.
Qed.

Lemma completion_counted_witness :
  ∃ sto' data',
    complete_challenge 739924 "alice" Missing
      {["current_challenge" := "Teach a concept to someone else"]}
    = Ok (sto', ∅, Rerun)
    ∧ load_data sto' = Ok data'
    ∧ length (user_challenges "alice" data') = 1%nat
    ∧ length (user_challenges "bob" data') = 0%nat.
Proof.
  destruct (completion_counted 739924 "alice"
              "Teach a concept to someone else" Missing empty_document
              {["current_challenge" := "Teach a concept to someone else"]})
    as (sto' & data' & Hrun & Hload & Hcount & _); [done | done |].
  exists sto', data'. split_and!.
  - by rewrite Hrun, delete_singleton_eq.
  - done.
  - by rewrite Hcount.
  - by rewrite Hcount.
Defined.

(** Without a current challenge in the session the button is not on the
    page: nothing is stored and the session stays. *)
Lemma complete_challenge_absent (today : Z) (username : string)
    (sto : storage) (ss : session_state) :
  ss !! "current_challenge" = None →
  complete_challenge today username sto ss = Ok (sto, ss, Return ()).
Proof. intros Hnone. unfold complete_challenge. by rewrite Hnone. Qed.

Lemma count_challenges_app challenges1 challenges2
    (progress : gmap string nat) :
  count_challenges (challenges1 ++ challenges2) progress
  = count_challenges challenges2 (count_challenges challenges1 progress).
Proof. unfold count_challenges. by rewrite foldl_app. Qed.

(** X7: On the chart, a completion raises the bar of today by one and leaves
    every other bar as it was, whoever the user is. *)
Theorem completion_on_chart (today : Z) (username current : string)
    (sto : storage) (data : Document) (ss : session_state)
    (before : gmap string nat) :
  load_data sto = Ok data →
  ss !! "current_challenge" = Some current →
  get_weekly_progress today sto = Ok before →
  ∃ sto' after,
    complete_challenge today username sto ss
    = Ok (sto', delete "current_challenge" ss, Rerun)
    ∧ get_weekly_progress today sto' = Ok after
    ∧ after !! pydate.isoformat today
      = Some (S (default 0%nat (before !! pydate.isoformat today)))
    ∧ ∀ date, date ≠ pydate.isoformat today → after !! date = before !! date.
Proof.
  intros Hload Hcurrent Hbefore.
  unfold get_weekly_progress in Hbefore. rewrite Hload in Hbefore.
  simpl in Hbefore. injection Hbefore as <-.
  eexists _, _. split_and!.
  - by apply complete_challenge_stored.
  - unfold get_weekly_progress. simpl. by rewrite count_challenges_app.
  - simpl. rewrite lookup_increment. by rewrite decide_True.
  - intros date Hdate. simpl. rewrite lookup_increment.
    by rewrite decide_False.
Qed.

Lemma completion_on_chart_witness :
  ∃ sto' after,
    complete_challenge 739924 "alice" Missing
      {["current_challenge" := "Teach a concept to someone else"]}
    = Ok (sto', ∅, Rerun)
    ∧ get_weekly_progress 739924 sto' = Ok after
    ∧ after !! "2026-11-04" = Some 1%nat
    ∧ after !! "2026-11-03" = Some 0%nat.
Proof.
  destruct (completion_on_chart 739924 "alice"
              "Teach a concept to someone else" Missing empty_document
              {["current_challenge" := "Teach a concept to someone else"]}
              (last_seven_days 739924))
    as (sto' & after & Hrun & Hchart & Htoday & Hother);
    [done | done | done |].
  exists sto', after. split_and!.
  - by rewrite Hrun, delete_singleton_eq.
  - done.
  - change "2026-11-04"%string with (pydate.isoformat 739924).
    rewrite Htoday. by vm_compute.
  - rewrite Hother by (by vm_compute). by vm_compute.
Defined.

Lemma mapM_snoc (strs : list string) (parsed : list Z) (s : string) (date : Z) :
  mapM pydate.fromisoformat strs = Some parsed →
  pydate.fromisoformat s = Some date →
  mapM pydate.fromisoformat (strs ++ [s]) = Some (parsed ++ [date]).
Proof.
  intros Hparse Hs. apply mapM_Some. apply Forall2_app.
  - by apply mapM_Some.
  - by repeat constructor.
Qed.

(** Adding today's date to a non-empty list does not change the streak. *)
Lemma calculate_streak_with_today (today : Z) (strs : list string)
    (parsed : list Z) (s : string) :
  strs ≠ [] →
  mapM pydate.fromisoformat strs = Some parsed →
  pydate.fromisoformat s = Some today →
  calculate_streak today (strs ++ [s]) = calculate_streak today strs.
Proof.
  intros Hne Hparse Hs.
  pose proof (mapM_snoc strs parsed s today Hparse Hs) as Hparse'.
  destruct (decide (Exists (λ date, today < date) parsed)) as [Hfuture|Hpast].
  - apply Exists_exists in Hfuture as (date & Hin & Hlt). simpl in Hlt.
    rewrite (future_date_stops today strs parsed date Hparse Hin Hlt).
    apply (future_date_stops today _ (parsed ++ [today]) date);
      [done | | done].
    apply elem_of_app. by left.
  - apply not_Exists_Forall in Hpast; [|intros; apply _].
    rewrite list.Forall_forall in Hpast.
    destruct (run_before_exists parsed today) as (k & Hrun & Hend).
    rewrite (run_counted today strs parsed k); try done.
    + apply (run_counted today _ (parsed ++ [today]) k).
      * by destruct strs.
      * done.
      * intros date [Hin|Hin%list_elem_of_singleton]%elem_of_app; [|lia].
        specialize (Hpast date Hin). simpl in Hpast. lia.
      * intros i Hi. apply elem_of_app. left. by apply Hrun.
      * intros [Hin|Hin%list_elem_of_singleton]%elem_of_app; [done|lia].
    + intros date Hin. specialize (Hpast date Hin). simpl in Hpast. lia.
Qed.

Lemma calculate_streak_first (today : Z) (s : string) :
  pydate.fromisoformat s = Some today →
  calculate_streak today [s] = Some 1%nat.
Proof.
  intros Hs. apply (run_counted today [s] [today] 0).
  - done.
  - by apply mapM_singleton.
  - intros date Hin%list_elem_of_singleton. lia.
  - intros i Hi. lia.
  - intros Hin%list_elem_of_singleton. lia.
Qed.

(** X8: What the tracker shows after a completion today: the total is one
    more; the streak is 1 if it was the user's first completion and is
    otherwise the streak shown before. *)
Theorem completion_keeps_streak (today : Z) (username current : string)
    (sto : storage) (data : Document) (ss : session_state) (before : tracker) :
  pydate.MINORD ≤ today ≤ pydate.MAXORD →
  load_data sto = Ok data →
  ss !! "current_challenge" = Some current →
  progress_tracker today username sto = Ok (Some before) →
  ∃ sto' after,
    complete_challenge today username sto ss
    = Ok (sto', delete "current_challenge" ss, Rerun)
    ∧ progress_tracker today username sto' = Ok (Some after)
    ∧ total_challenges after = S (total_challenges before)
    ∧ current_streak after
      = if decide (total_challenges before = 0%nat) then 1%nat
        else current_streak before.
Proof.
  intros Htoday Hload Hcurrent Hbefore.
  unfold progress_tracker in Hbefore. rewrite Hload in Hbefore.
  simpl in Hbefore.
  destruct (calculate_streak today
              (challenge_date <$> user_challenges username data))
    as [streak|] eqn:Hstreak; [|done].
  unfold get_weekly_progress in Hbefore. rewrite Hload in Hbefore.
  simpl in Hbefore. injection Hbefore as <-. simpl.
  pose proof (fromisoformat_isoformat today Htoday) as Hiso.
  assert (Hafter :
    calculate_streak today
      (challenge_date <$>
         user_challenges username
           (with_completion today username current data))
    = Some (if decide (length (user_challenges username data) = 0%nat)
            then 1%nat else streak)).
  { rewrite user_challenges_with_completion, decide_True by done.
    rewrite fmap_app. simpl.
    destruct (user_challenges username data) as [|c ucs] eqn:Hucs.
    - simpl. by apply calculate_streak_first.
    - rewrite decide_False by done.
      destruct (mapM pydate.fromisoformat (challenge_date <$> c :: ucs))
        as [parsed|] eqn:Hparse.
      + by rewrite (calculate_streak_with_today today _ parsed).
      + unfold calculate_streak in Hstreak. simpl in Hstreak.
        simpl in Hparse. by rewrite Hparse in Hstreak. }
  eexists _, _. split_and!.
  - by apply complete_challenge_stored.
  - unfold progress_tracker. simpl. rewrite Hafter.
    unfold get_weekly_progress. simpl. reflexivity.
  - simpl. rewrite user_challenges_with_completion, decide_True by done.
    rewrite length_app. simpl. lia.
  - done.
Qed.

Lemma completion_keeps_streak_witness :
  let done_on date :=
    {| challenge_date := date; challenge := "Teach a concept to someone else";
       challenge_user := "alice" |} in
  let data := {|
    journal_entries := [];
    completed_challenges := [done_on "2026-11-02"; done_on "2026-11-03"];
    community_posts := [];
    users := ∅ |} in
  ∃ sto' after,
    complete_challenge 739924 "alice" (Stored data)
      {["current_challenge" := "Teach a concept to someone else"]}
    = Ok (sto', ∅, Rerun)
    ∧ progress_tracker 739924 "alice" (Stored data)
      = Ok (Some {| total_challenges := 2; current_streak := 3;
                    weekly_chart :=
                      count_challenges (completed_challenges data)
                        (last_seven_days 739924) |})
    ∧ progress_tracker 739924 "alice" sto' = Ok (Some after)
    ∧ total_challenges after = 3%nat
    ∧ current_streak after = 3%nat.
Proof.
  intros done_on data.
  set (before := {| total_challenges := 2; current_streak := 3;
                    weekly_chart :=
                      count_challenges (completed_challenges data)
                        (last_seven_days 739924) |}).
  assert (Hbefore :
    progress_tracker 739924 "alice" (Stored data) = Ok (Some before))
    by (by vm_compute).
  destruct (completion_keeps_streak 739924 "alice"
              "Teach a concept to someone else" (Stored data) data
              {["current_challenge" := "Teach a concept to someone else"]}
              before)
    as (sto' & after & Hrun & Hafter & Htotal & Hstreak);
    [unfold pydate.MINORD, pydate.MAXORD; lia | done | done
    | exact Hbefore |].
  exists sto', after.
  split_and!; [by rewrite Hrun, delete_singleton_eq | done ..].
Defined.

(** The run of [k] days before [day] is [k] different dates. *)
Lemma run_length_le (parsed : list Z) (day : Z) (k : nat) :
  (∀ i, 1 ≤ i ≤ Z.of_nat k → day - i ∈ parsed) → (k ≤ length parsed)%nat.
Proof.
  intros Hrun.
  assert (Hsub : ((λ i, day - i) <$> seqZ 1 (Z.of_nat k)) ⊆+ parsed).
  { apply NoDup_submseteq.
    - apply NoDup_fmap_2_strong; [|apply NoDup_seqZ]. intros; lia.
    - intros date (i & -> & Hi%elem_of_seqZ)%list_elem_of_fmap.
      apply Hrun. lia. }
  apply submseteq_length in Hsub.
  rewrite length_fmap, length_seqZ in Hsub. lia.
Qed.

Lemma calculate_streak_le (today : Z) (strs : list string) (n : nat) :
  calculate_streak today strs = Some n → (n ≤ S (length strs))%nat.
Proof.
  intros Hn. destruct strs as [|s strs]; [simpl in Hn; simplify_eq; lia|].
  destruct (mapM pydate.fromisoformat (s :: strs)) as [parsed|] eqn:Hparse.
  2:{ unfold calculate_streak in Hn. by rewrite Hparse in Hn. }
  pose proof (length_mapM _ _ _ Hparse) as Hlen.
  destruct (decide (Exists (λ date, today < date) parsed)) as [Hfuture|Hpast].
  - apply Exists_exists in Hfuture as (date & Hin & Hlt). simpl in Hlt.
    rewrite (future_date_stops today _ parsed date Hparse Hin Hlt) in Hn.
    simplify_eq. simpl. lia.
  - apply not_Exists_Forall in Hpast; [|intros; apply _].
    rewrite list.Forall_forall in Hpast.
    destruct (run_before_exists parsed today) as (k & Hrun & Hend).
    rewrite (run_counted today _ parsed k) in Hn; try done.
    + simplify_eq. apply run_length_le in Hrun. lia.
    + intros date Hin. specialize (Hpast date Hin). simpl in Hpast. lia.
Qed.

(** X9: What the tracker shows is consistent: the streak is 0 exactly when
    the user has no completion, and it never exceeds the user's total by
    more than one. *)
Theorem tracker_streak_bounds (today : Z) (username : string) (sto : storage)
    (shown : tracker) :
  progress_tracker today username sto = Ok (Some shown) →
  (current_streak shown = 0%nat ↔ total_challenges shown = 0%nat)
  ∧ (current_streak shown ≤ S (total_challenges shown))%nat.
Proof.
  unfold progress_tracker. destruct (load_data sto) as [data|]; [|done].
  simpl.
  destruct (calculate_streak today
              (challenge_date <$> user_challenges username data))
    as [streak|] eqn:Hstreak; [|done].
  destruct (get_weekly_progress today sto) as [progress|]; [|done].
  simpl. intros [= <-]. simpl. split.
  - split.
    + intros ->. apply calculate_streak_zero in Hstreak.
      apply fmap_nil_inv in Hstreak. by rewrite Hstreak.
    + intros Hnone%nil_length_inv. rewrite Hnone in Hstreak.
      simpl in Hstreak. by simplify_eq.
  - apply calculate_streak_le in Hstreak.
    by rewrite length_fmap in Hstreak.
Qed.

Lemma tracker_streak_bounds_witness :
  let done_on date :=
    {| challenge_date := date; challenge := "Teach a concept to someone else";
       challenge_user := "alice" |} in
  let sto := Stored {|
    journal_entries := [];
    completed_challenges := [done_on "2026-11-03"];
    community_posts := [];
    users := ∅ |} in
  ∃ shown,
    progress_tracker 739924 "alice" sto = Ok (Some shown)
    ∧ total_challenges shown = 1%nat
    ∧ current_streak shown = 2%nat
    ∧ (current_streak shown ≤ S (total_challenges shown))%nat.
Proof.
  intros done_on sto.
  destruct (progress_tracker 739924 "alice" sto) as [[shown|]|] eqn:Hshown;
    [| by vm_compute in Hshown ..].
  exists shown. split; [done|].
  pose proof (tracker_streak_bounds 739924 "alice" sto shown Hshown)
    as [_ Hbound].
  vm_compute in Hshown. injection Hshown as <-. by split_and!.
Defined.

(** ** The session *)

(** X10: A run of [authenticate_user] that goes through leaves the journal,
    the completions and the posts alone and keeps every user record; the
    only name it can add is the non-empty name typed in the box. *)
Theorem authenticate_user_frame (today : Z) (ui : sidebar) (sto : storage)
    (data : Document) (ss : session_state) sto' ss' out :
  load_data sto = Ok data →
  authenticate_user today ui sto ss = Ok (sto', ss', out) →
  ∃ data',
    load_data sto' = Ok data'
    ∧ journal_entries data' = journal_entries data
    ∧ completed_challenges data' = completed_challenges data
    ∧ community_posts data' = community_posts data
    ∧ users data ⊆ users data'
    ∧ ∀ name, is_Some (users data' !! name) →
        is_Some (users data !! name)
        ∨ (name = username_input ui ∧ name ≠ "").
Proof.
  intros Hload. unfold authenticate_user. rewrite Hload. simpl. cbv zeta.
  assert (Hsame : ∃ data',
    load_data sto = Ok data'
    ∧ journal_entries data' = journal_entries data
    ∧ completed_challenges data' = completed_challenges data
    ∧ community_posts data' = community_posts data
    ∧ users data ⊆ users data'
    ∧ ∀ name, is_Some (users data' !! name) →
        is_Some (users data !! name)
        ∨ (name = username_input ui ∧ name ≠ ""))
    by (exists data; split_and!; auto).
  destruct (ss !! "authenticated") as [name|].
  { destruct (logout_clicked ui); by intros [= <- <- <-]. }
  destruct (login_clicked ui); [|by intros [= <- <- <-]].
  case_bool_decide as Hname; [|by intros [= <- <- <-]].
  destruct (users data !! username_input ui) as [record|] eqn:Hlookup;
    [by intros [= <- <- <-]|].
  destruct (save_data _ sto) as [saved|] eqn:Hsave; [|done].
  apply save_data_Stored in Hsave as ->. simpl. intros [= <- <- <-].
  eexists. split_and!; try done.
  - simpl. by apply insert_subseteq.
  - simpl. intros name Hsome.
    destruct (decide (name = username_input ui)) as [->|Hne]; [by right|].
    left. by rewrite lookup_insert_ne in Hsome.
Qed.

Lemma authenticate_user_frame_witness :
  ∃ data',
    load_data (Stored (with_user "alice" 739924 empty_document)) = Ok data'
    ∧ journal_entries data' = []
    ∧ ∀ name, is_Some (users data' !! name) → name = "alice".
Proof.
  destruct (authenticate_user_frame 739924 (login "alice" false) Missing
              empty_document ∅
              (Stored (with_user "alice" 739924 empty_document))
              {["authenticated" := "alice"]} Rerun)
    as (data' & Hload & Hjournal & _ & _ & _ & Hnew); [done | done |].
  exists data'. split_and!; [done | done |].
  intros name [Hold | [-> _]]%Hnew; [|done].
  simpl in Hold. rewrite lookup_empty in Hold. by destruct Hold.
Defined.

(** X11: A name comes back only from a session that is already
    authenticated: the run that logs in ends in a rerun, and an
    authenticated session gets the name it holds, whatever is typed in the
    box, with nothing stored. *)
Theorem authenticate_user_returns (today : Z) (ui : sidebar) (sto : storage)
    (data : Document) (ss : session_state) (name : string) sto' ss' :
  load_data sto = Ok data →
  authenticate_user today ui sto ss = Ok (sto', ss', Return (Some name))
  ↔ ss !! "authenticated" = Some name ∧ logout_clicked ui = false
    ∧ sto' = sto ∧ ss' = ss.
Proof.
  intros Hload. unfold authenticate_user. rewrite Hload. simpl. cbv zeta.
  destruct (ss !! "authenticated") as [held|].
  - destruct (logout_clicked ui); split;
      [done | by intros (_ & ? & _) | by intros [= -> -> ->]
      | by intros ([= ->] & _ & -> & ->)].
  - split; [|by intros [? _]].
    destruct (login_clicked ui); [|done].
    case_bool_decide; [|done].
    destruct (users data !! username_input ui); [done|].
    by destruct (save_data _ sto).
Qed.

Lemma authenticate_user_returns_witness :
  authenticate_user 739924 (login "mallory" false) Missing
    {["authenticated" := "alice"]}
  = Ok (Missing, {["authenticated" := "alice"]}, Return (Some "alice")).
Proof.
  apply (authenticate_user_returns 739924 (login "mallory" false) Missing
           empty_document {["authenticated" := "alice"]} "alice"); done.
Defined.

(** X12: A session from login to logout: the login run reruns; the next run
    returns the name; the logout run reruns with the key removed; the run
    after it returns nothing. The user record stored at login is still
    stored at the end. *)
Theorem session_lifecycle (today : Z) (username text : string)
    (sto : storage) (data : Document) (ss : session_state) :
  username ≠ "" →
  load_data sto = Ok data →
  ss !! "authenticated" = None →
  ∃ sto1 data1 record,
    let ss1 := <["authenticated" := username]> ss in
    authenticate_user today (login username false) sto ss
    = Ok (sto1, ss1, Rerun)
    ∧ authenticate_user today (idle text) sto1 ss1
      = Ok (sto1, ss1, Return (Some username))
    ∧ authenticate_user today (logout text) sto1 ss1
      = Ok (sto1, delete "authenticated" ss1, Rerun)
    ∧ authenticate_user today (idle text) sto1 (delete "authenticated" ss1)
      = Ok (sto1, delete "authenticated" ss1, Return None)
    ∧ load_data sto1 = Ok data1
    ∧ users data1 !! username = Some record.
Proof.
  intros Hname Hload Hsession.
  assert (Hfirst : ∃ sto1 data1 record,
    authenticate_user today (login username false) sto ss
    = Ok (sto1, <["authenticated" := username]> ss, Rerun)
    ∧ load_data sto1 = Ok data1 ∧ users data1 !! username = Some record).
  { destruct (users data !! username) as [record|] eqn:Hlookup.
    - exists sto, data, record. split_and!; [|done..].
      by eapply later_login.
    - eexists _, _, _. split_and!; [by apply first_login | done |].
      simpl. by rewrite lookup_insert_eq. }
  destruct Hfirst as (sto1 & data1 & record & Hrun & Hload1 & Hrecord).
  exists sto1, data1, record. cbv zeta. split_and!; try done.
  - unfold authenticate_user. rewrite Hload1. simpl.
    by rewrite lookup_insert_eq.
  - unfold authenticate_user. rewrite Hload1. simpl.
    by rewrite lookup_insert_eq.
  - unfold authenticate_user. rewrite Hload1. simpl.
    by rewrite lookup_delete_eq.
Qed.

Lemma session_lifecycle_witness :
  ∃ sto1,
    authenticate_user 739924 (login "alice" false) Missing ∅
    = Ok (sto1, {["authenticated" := "alice"]}, Rerun)
    ∧ authenticate_user 739924 (idle "") sto1 {["authenticated" := "alice"]}
      = Ok (sto1, {["authenticated" := "alice"]}, Return (Some "alice"))
    ∧ authenticate_user 739924 (logout "") sto1 {["authenticated" := "alice"]}
      = Ok (sto1, ∅, Rerun)
    ∧ authenticate_user 739924 (idle "") sto1 ∅ = Ok (sto1, ∅, Return None).
Proof.
  destruct (session_lifecycle 739924 "alice" "" Missing empty_document ∅)
    as (sto1 & data1 & record & Hlogin & Hnext & Hlogout & Hlast & _);
    [done | done | done |].
  cbv zeta in *. rewrite insert_empty in *.
  rewrite delete_singleton_eq in *.
  by exists sto1.
Defined.

(** ** The journal *)

Lemma contains_empty (hay : string) : contains "" hay = true.
Proof. by destruct hay. Qed.

(** Two entries of a list with distinct ids that share an id are one. *)
Lemma NoDup_fmap_eq {A B} (f : A → B) (l : list A) (x y : A) :
  NoDup (f <$> l) → x ∈ l → y ∈ l → f x = f y → x = y.
Proof.
  induction l as [|z l IH]; [by intros _ ?%elem_of_nil|].
  rewrite fmap_cons, NoDup_cons.
  intros [Hz Hnodup] [->|Hx]%elem_of_cons [->|Hy]%elem_of_cons Heq;
    [done | | | by apply IH].
  - exfalso. apply Hz. rewrite Heq. by apply list_elem_of_fmap_2.
  - exfalso. apply Hz. rewrite <- Heq. by apply list_elem_of_fmap_2.
Qed.

(** With distinct ids, filtering an id out removes at most one element. *)
Lemma filter_id_length {A} (f : A → string) (id : string) (l : list A) :
  NoDup (f <$> l) →
  (length l ≤ S (length (filter (λ x, f x ≠ id) l)))%nat.
Proof.
  induction l as [|x l IH]; [simpl; lia|].
  rewrite fmap_cons, NoDup_cons. intros [Hx Hnodup].
  destruct (decide (f x = id)) as [Hid|Hid].
  - rewrite filter_cons_False by (by intros ?).
    rewrite filter_all; [simpl; lia|].
    intros y Hy Heq. apply Hx. rewrite Hid, <- Heq.
    by apply list_elem_of_fmap_2.
  - rewrite filter_cons_True by done. simpl. specialize (IH Hnodup). lia.
Qed.

(** X13: "View Past Entries" lists entries of the user only, in the stored
    order, and with an empty search it lists all of them. *)
Theorem filtered_entries_own (lower : string → string)
    (username search_query : string) (data : Document) :
  (∀ e, e ∈ filtered_entries lower username search_query data →
        e ∈ journal_entries data ∧ entry_user e = username)
  ∧ filtered_entries lower username search_query data
    `sublist_of` journal_entries data
  ∧ (lower "" = "" →
     filtered_entries lower username "" data
     = filter (λ e, entry_user e = username) (journal_entries data)).
Proof.
  unfold filtered_entries. split_and!.
  - intros e (Hshown & Hin)%list_elem_of_filter. by destruct Hshown.
  - apply sublist_filter.
  - intros Hlower. apply list_filter_iff. intros e. rewrite Hlower.
    rewrite contains_empty. simpl. tauto.
Qed.

Lemma filtered_entries_own_witness :
  let entry i user text := {|
    entry_id := i; entry_date := "2026-11-04"; reflection := text;
    lessons := ""; mood := "😊"; tags := []; entry_user := user |} in
  filtered_entries (λ s, s) "alice" "" {|
    journal_entries :=
      [entry "a" "alice" "one"; entry "b" "bob" "two";
       entry "c" "alice" "three"];
    completed_challenges := []; community_posts := []; users := ∅ |}
  = [entry "a" "alice" "one"; entry "c" "alice" "three"].
Proof.
  intros entry.
  pose proof (filtered_entries_own (λ s, s) "alice" "" {|
    journal_entries :=
      [entry "a" "alice" "one"; entry "b" "bob" "two";
       entry "c" "alice" "three"];
    completed_challenges := []; community_posts := []; users := ∅ |})
    as (_ & _ & Hall).
  rewrite Hall by done. by vm_compute.
Defined.

(** X14: An entry saved under a new id and then deleted from the user's view
    leaves the stored document as it was. *)
Theorem save_entry_then_delete (lower : string → string) (uuid : string)
    (form : journal_form) (username : string) (sto : storage)
    (data : Document) :
  lower "" = "" →
  load_data sto = Ok data →
  uuid ∉ entry_id <$> journal_entries data →
  ∃ sto1,
    save_entry uuid form username sto = Ok sto1
    ∧ delete_button lower username "" uuid sto1 = Ok (Stored data).
Proof.
  intros Hlower Hload Hfresh. unfold save_entry. rewrite Hload. simpl.
  rewrite save_data_Ok by (by eapply load_data_accessible).
  eexists. split; [done|].
  unfold delete_button. simpl. rewrite bool_decide_true.
  - simpl. f_equal. f_equal. destruct data as [entries ? ? ?].
    unfold delete_journal_entry. simpl. f_equal.
    rewrite filter_app, filter_cons_False by (by intros ?).
    rewrite filter_nil, app_nil_r. apply filter_all.
    intros e He Hid. apply Hfresh. simpl. rewrite <- Hid.
    by apply list_elem_of_fmap_2.
  - unfold filtered_entries. simpl. rewrite filter_app, fmap_app.
    apply elem_of_app. right.
    rewrite filter_cons_True; [by left|].
    simpl. split; [done|]. by rewrite Hlower, contains_empty.
Qed.

Lemma save_entry_then_delete_witness :
  ∃ sto1,
    save_entry "0b1e" {| form_date := 739924; form_reflection := "tried";
                         form_lessons := "patience"; form_mood := "😊";
                         form_tags := ["Learning"] |} "alice" Missing
    = Ok sto1
    ∧ delete_button (λ s, s) "alice" "" "0b1e" sto1
      = Ok (Stored empty_document).
Proof.
  apply (save_entry_then_delete (λ s, s)); [done | done |].
  by intros ?%elem_of_nil.
Defined.

(** X15: With distinct ids, a delete button pressed in the view of a user,
    in a run that goes through, takes away at most one entry and never an
    entry of another user; the other collections stay. *)
Theorem delete_button_spares_others (lower : string → string)
    (username search_query id : string) (sto sto' : storage)
    (data : Document) :
  load_data sto = Ok data →
  NoDup (entry_id <$> journal_entries data) →
  delete_button lower username search_query id sto = Ok sto' →
  ∃ data',
    load_data sto' = Ok data'
    ∧ (∀ e, e ∈ journal_entries data → entry_user e ≠ username →
            e ∈ journal_entries data')
    ∧ (length (journal_entries data)
       ≤ S (length (journal_entries data')))%nat
    ∧ completed_challenges data' = completed_challenges data
    ∧ community_posts data' = community_posts data
    ∧ users data' = users data.
Proof.
  intros Hload Hnodup. unfold delete_button. rewrite Hload. simpl.
  case_bool_decide as Hdrawn.
  - intros ->%save_data_Stored.
    eexists. split_and!; try done; simpl.
    + intros e He Huser. apply list_elem_of_filter. split; [|done].
      intros Hid.
      apply list_elem_of_fmap in Hdrawn as (shown & -> & Hshown).
      apply list_elem_of_filter in Hshown as [[Hown _] Hin].
      apply Huser. rewrite <- Hown. f_equal.
      by apply (NoDup_fmap_eq entry_id (journal_entries data)).
    + by apply filter_id_length.
  - intros [= <-]. exists data. split_and!; try done. lia.
Qed.

Lemma delete_button_spares_others_witness :
  let entry i user text := {|
    entry_id := i; entry_date := "2026-11-04"; reflection := text;
    lessons := ""; mood := "😊"; tags := []; entry_user := user |} in
  let data := {|
    journal_entries := [entry "a" "alice" "one"; entry "b" "bob" "two"];
    completed_challenges := []; community_posts := []; users := ∅ |} in
  ∃ sto' data',
    delete_button (λ s, s) "alice" "" "a" (Stored data) = Ok sto'
    ∧ load_data sto' = Ok data'
    ∧ entry "b" "bob" "two" ∈ journal_entries data'
    ∧ length (journal_entries data') = 1%nat.
Proof.
  intros entry data.
  destruct (delete_button (λ s, s) "alice" "" "a" (Stored data))
    as [sto'|] eqn:Hrun; [|by vm_compute in Hrun].
  destruct (delete_button_spares_others (λ s, s) "alice" "" "a"
              (Stored data) sto' data)
    as (data' & Hload & Hothers & _); [done | | done |].
  { apply (bool_decide_unpack _). by vm_compute. }
  exists sto', data'. split_and!; [done | done | |].
  - apply Hothers; [|done]. apply list_elem_of_In. simpl. auto.
  - vm_compute in Hrun. injection Hrun as <-.
    simpl in Hload. by injection Hload as <-.
Defined.

(** ** The community wall *)

Section wall.

Context (lower : string → string) (user query : string).

Lemma press_not_drawn (button : wall_button) (posts : list CommunityPost) :
  Forall (λ post, ¬ draws lower user query button post) posts →
  press lower user query button posts = posts.
Proof.
  intros Hnone. unfold press.
  assert (Hfind :
    list_find (draws lower user query button) (reverse posts) = None).
  { apply list_find_None, list.Forall_forall. intros post Hin.
    rewrite elem_of_reverse in Hin.
    rewrite list.Forall_forall in Hnone. by apply Hnone. }
  by rewrite Hfind.
Qed.

(** The loop stops at the newest post that draws the button. *)
Lemma list_find_newest (button : wall_button)
    (older newer : list CommunityPost) (post : CommunityPost) :
  draws lower user query button post →
  Forall (λ post, ¬ draws lower user query button post) newer →
  list_find (draws lower user query button) (reverse (older ++ post :: newer))
  = Some (length (reverse newer), post).
Proof.
  intros Hpost Hnewer.
  rewrite reverse_app, reverse_cons, <- app_assoc. simpl.
  apply list_find_Some. split_and!; [|done|].
  - rewrite lookup_app_r by lia. by rewrite Nat.sub_diag.
  - intros j other Hother Hj. rewrite lookup_app_l in Hother by done.
    apply list_elem_of_lookup_2 in Hother. rewrite elem_of_reverse in Hother.
    rewrite list.Forall_forall in Hnewer. by apply Hnewer.
Qed.

Lemma liked_drawn (button : wall_button) (post : CommunityPost) :
  draws lower user query button (liked post)
  ↔ draws lower user query button post.
Proof. done. Qed.

Lemma press_like (id : string) (older newer : list CommunityPost)
    (post : CommunityPost) :
  draws lower user query (LikeButton id) post →
  Forall (λ post, ¬ draws lower user query (LikeButton id) post) newer →
  press lower user query (LikeButton id) (older ++ post :: newer)
  = older ++ liked post :: newer.
Proof.
  intros Hpost Hnewer. unfold press.
  rewrite (list_find_newest _ older newer post) by done.
  rewrite reverse_app, reverse_cons, <- app_assoc.
  rewrite <- (Nat.add_0_r (length (reverse newer))), alter_app_r. simpl.
  rewrite reverse_app, reverse_involutive. simpl.
  rewrite reverse_cons, reverse_involutive, <- app_assoc. done.
Qed.

Lemma press_delete (id : string) (posts : list CommunityPost) :
  Exists (draws lower user query (DeleteButton id)) posts →
  press lower user query (DeleteButton id) posts
  = filter (λ p, post_id p ≠ id) posts.
Proof.
  intros Hdrawn. unfold press.
  destruct (list_find (draws lower user query (DeleteButton id))
              (reverse posts))
    as [[i post]|] eqn:Hfind.
  - apply list_find_Some in Hfind as (_ & (_ & _ & <-) & _). done.
  - apply list_find_None in Hfind. rewrite list.Forall_forall in Hfind.
    apply Exists_exists in Hdrawn as (post & Hin & Hpost).
    destruct (Hfind post); [by rewrite elem_of_reverse | done].
Qed.

(** X16: A like goes to the newest post on display that has the id of the
    button, and to no other; a second press adds a second like to the same
    post. Without such a post nothing changes. *)
Theorem like_button_newest (id : string) (posts : list CommunityPost) :
  (Forall (λ post, ¬ draws lower user query (LikeButton id) post) posts →
   press lower user query (LikeButton id) posts = posts)
  ∧ (∀ older post newer,
       posts = older ++ post :: newer →
       draws lower user query (LikeButton id) post →
       Forall (λ post, ¬ draws lower user query (LikeButton id) post) newer →
       press lower user query (LikeButton id) posts
       = older ++ liked post :: newer
       ∧ press lower user query (LikeButton id)
           (press lower user query (LikeButton id) posts)
         = older ++ liked (liked post) :: newer).
Proof.
  split; [apply press_not_drawn|].
  intros older post newer -> Hpost Hnewer.
  rewrite press_like by done. split; [done|].
  by rewrite press_like by (by try apply liked_drawn).
Qed.

(** X17: With distinct ids, no button on the wall of a user removes or
    rewrites a post of another author, except that a like adds one to its
    count; a delete button removes at most one post. *)
Theorem wall_spares_other_authors (button : wall_button)
    (posts : list CommunityPost) (post : CommunityPost) :
  NoDup (post_id <$> posts) →
  post ∈ posts →
  author post ≠ user →
  (post ∈ press lower user query button posts
   ∨ liked post ∈ press lower user query button posts)
  ∧ (∀ id, button = DeleteButton id →
       post ∈ press lower user query button posts
       ∧ (length posts ≤ S (length (press lower user query button posts)))%nat).
Proof.
  intros Hnodup Hin Hauthor.
  assert (Hdelete : ∀ id,
    post ∈ press lower user query (DeleteButton id) posts
    ∧ (length posts
       ≤ S (length (press lower user query (DeleteButton id) posts)))%nat).
  { intros id.
    destruct (decide (Exists (draws lower user query (DeleteButton id)) posts))
      as [Hdrawn|Hnone].
    - rewrite press_delete by done. split; [|by apply filter_id_length].
      apply list_elem_of_filter. split; [|done]. intros Hid.
      apply Exists_exists in Hdrawn as (mine & Hmine & _ & Hown & Hsame).
      apply Hauthor. rewrite <- Hown. f_equal.
      apply (NoDup_fmap_eq post_id posts); [done..|congruence].
    - apply not_Exists_Forall in Hnone; [|intros; apply _].
      rewrite press_not_drawn by done. split; [done|lia]. }
  split; [|by intros id ->].
  destruct button as [id|id]; [|left; apply Hdelete].
  destruct (decide (Exists (draws lower user query (LikeButton id)) posts))
    as [Hdrawn|Hnone].
  - apply Exists_exists in Hdrawn as (some & Hsome & Hdrawn).
    unfold press.
    destruct (list_find (draws lower user query (LikeButton id))
                (reverse posts))
      as [[i target]|] eqn:Hfind.
    2:{ apply list_find_None in Hfind. rewrite list.Forall_forall in Hfind.
        destruct (Hfind some); [by rewrite elem_of_reverse | done]. }
    apply list_find_Some in Hfind as (Htarget & _ & _).
    rewrite <- elem_of_reverse in Hin.
    apply list_elem_of_lookup_1 in Hin as [j Hj].
    destruct (decide (i = j)) as [->|Hne].
    + right. rewrite elem_of_reverse.
      apply (list_elem_of_lookup_2 _ j).
      by rewrite list_lookup_alter_eq, Hj.
    + left. rewrite elem_of_reverse.
      apply (list_elem_of_lookup_2 _ j).
      by rewrite list_lookup_alter_ne.
  - apply not_Exists_Forall in Hnone; [|intros; apply _].
    left. by rewrite press_not_drawn.
Qed.

(** Every post on the wall after a button is a post that was there, with
    its count as it was or one more. *)
Lemma press_origin (button : wall_button) (posts : list CommunityPost)
    (post' : CommunityPost) :
  post' ∈ press lower user query button posts →
  ∃ post, post ∈ posts ∧ (post' = post ∨ post' = liked post).
Proof.
  unfold press.
  destruct (list_find (draws lower user query button) (reverse posts))
    as [[i target]|];
    [|by eauto].
  destruct button as [id|id].
  - rewrite elem_of_reverse. intros [j Hj]%list_elem_of_lookup_1.
    destruct (decide (i = j)) as [->|Hne].
    + rewrite list_lookup_alter_eq in Hj.
      destruct (reverse posts !! j) as [post|] eqn:Hpost; [|done].
      simpl in Hj. injection Hj as <-. exists post. split; [|by right].
      rewrite <- elem_of_reverse. by eapply list_elem_of_lookup_2.
    + rewrite list_lookup_alter_ne in Hj by done.
      exists post'. split; [|by left].
      rewrite <- elem_of_reverse. by eapply list_elem_of_lookup_2.
  - intros [_ Hin]%list_elem_of_filter. by eauto.
Qed.

Lemma length_press (button : wall_button) (posts : list CommunityPost) :
  (length (press lower user query button posts) ≤ length posts)%nat.
Proof.
  unfold press.
  destruct (list_find (draws lower user query button) (reverse posts))
    as [[i target]|];
    [|done].
  destruct button.
  - by rewrite length_reverse, length_alter, length_reverse.
  - apply length_filter.
Qed.

(** X18: A button of the wall, in a run that goes through, leaves the other
    collections alone, adds no post, and every post left is a stored post
    with its count unchanged or raised by one: counts never go down and
    stay non-negative. *)
Theorem wall_button_frame (button : wall_button) (sto sto' : storage)
    (data : Document) :
  load_data sto = Ok data →
  wall_button_pressed lower user query button sto = Ok sto' →
  ∃ data',
    load_data sto' = Ok data'
    ∧ community_posts data'
      = press lower user query button (community_posts data)
    ∧ journal_entries data' = journal_entries data
    ∧ completed_challenges data' = completed_challenges data
    ∧ users data' = users data
    ∧ (length (community_posts data') ≤ length (community_posts data))%nat
    ∧ (∀ post', post' ∈ community_posts data' →
         ∃ post, post ∈ community_posts data
                 ∧ (post' = post ∨ post' = liked post))
    ∧ (Forall (λ post, 0 ≤ likes post) (community_posts data) →
       Forall (λ post, 0 ≤ likes post) (community_posts data')).
Proof.
  intros Hload Hpressed.
  assert (Hrun : ∃ data',
    load_data sto' = Ok data'
    ∧ community_posts data'
      = press lower user query button (community_posts data)
    ∧ journal_entries data' = journal_entries data
    ∧ completed_challenges data' = completed_challenges data
    ∧ users data' = users data).
  { revert Hpressed. unfold wall_button_pressed, press.
    rewrite Hload. simpl.
    destruct (list_find (draws lower user query button)
                (reverse (community_posts data)))
      as [[i target]|] eqn:Hfind.
    - intros ->%save_data_Stored. eexists. by split_and!.
    - intros [= <-]. by exists data. }
  destruct Hrun as (data' & Hload' & Hposts & ? & ? & ?).
  exists data'. split_and!; try done.
  - rewrite Hposts. apply length_press.
  - rewrite Hposts. apply press_origin.
  - intros Hlikes. rewrite Hposts. apply list.Forall_forall.
    intros post' (post & Hin & Hpost)%press_origin.
    rewrite list.Forall_forall in Hlikes. specialize (Hlikes post Hin).
    destruct Hpost as [-> | ->]; simpl; lia.
Qed.

End wall.

(** X19: A post under a new id, made and then liked once, is stored after
    the posts that were there, which are unchanged, with one like. *)
Theorem post_then_like (lower : string → string)
    (username uuid now text : string) (sto : storage) (data : Document) :
  lower "" = "" →
  load_data sto = Ok data →
  uuid ∉ post_id <$> community_posts data →
  ∃ sto1 sto2 data2,
    post_to_community uuid now text username sto = Ok sto1
    ∧ wall_button_pressed lower username "" (LikeButton uuid) sto1 = Ok sto2
    ∧ load_data sto2 = Ok data2
    ∧ community_posts data2
      = community_posts data
        ++ [{| post_id := uuid; post_date := now; content := text;
               author := username; likes := 1 |}].
Proof.
  intros Hlower Hload Hfresh. unfold post_to_community. rewrite Hload. simpl.
  rewrite save_data_Ok by (by eapply load_data_accessible).
  eexists _, _, _. split; [done|].
  unfold wall_button_pressed. simpl.
  rewrite (list_find_newest lower username "" (LikeButton uuid)
             (community_posts data) []).
  - simpl. split_and!; [done..|]. simpl.
    rewrite (press_like lower username ""); [done | | done].
    split; [|done]. by rewrite Hlower, contains_empty.
  - split; [|done]. by rewrite Hlower, contains_empty.
  - done.
Qed.

(** X20: A post under a new id, made and then deleted by its author, leaves
    the stored document as it was. *)
Theorem post_then_delete (lower : string → string)
    (username uuid now text : string) (sto : storage) (data : Document) :
  lower "" = "" →
  load_data sto = Ok data →
  uuid ∉ post_id <$> community_posts data →
  ∃ sto1,
    post_to_community uuid now text username sto = Ok sto1
    ∧ wall_button_pressed lower username "" (DeleteButton uuid) sto1
      = Ok (Stored data).
Proof.
  intros Hlower Hload Hfresh. unfold post_to_community. rewrite Hload. simpl.
  rewrite save_data_Ok by (by eapply load_data_accessible).
  eexists. split; [done|].
  unfold wall_button_pressed. simpl.
  rewrite (list_find_newest lower username "" (DeleteButton uuid)
             (community_posts data) []).
  - simpl. f_equal. f_equal. destruct data as [? ? posts ?]. simpl in *.
    f_equal. rewrite press_delete.
    + rewrite filter_app, filter_cons_False by (by intros ?).
      rewrite filter_nil, app_nil_r. apply filter_all.
      intros post Hin Hid. apply Hfresh. rewrite <- Hid.
      by apply list_elem_of_fmap_2.
    + apply Exists_app. right. left. split; [|done].
      by rewrite Hlower, contains_empty.
  - split; [|done]. by rewrite Hlower, contains_empty.
  - done.
Qed.

Lemma like_button_newest_witness :
  let post i who n := {|
    post_id := i; post_date := "2026-11-04T09:00:00"; content := "keep going";
    author := who; likes := n |} in
  press (λ s, s) "alice" "keep" (LikeButton "p2")
    [post "p1" "bob" 0; post "p2" "bob" 4; post "p3" "alice" 0]
  = [post "p1" "bob" 0; post "p2" "bob" 5; post "p3" "alice" 0]
  ∧ press (λ s, s) "alice" "keep" (LikeButton "p2")
      (press (λ s, s) "alice" "keep" (LikeButton "p2")
         [post "p1" "bob" 0; post "p2" "bob" 4; post "p3" "alice" 0])
    = [post "p1" "bob" 0; post "p2" "bob" 6; post "p3" "alice" 0].
Proof.
  intros post.
  pose proof (like_button_newest (λ s, s) "alice" "keep" "p2"
    [post "p1" "bob" 0; post "p2" "bob" 4; post "p3" "alice" 0])
    as [_ Hlike].
  apply (Hlike [post "p1" "bob" 0] (post "p2" "bob" 4) [post "p3" "alice" 0]).
  - done.
  - split; [by vm_compute | done].
  - repeat constructor. by intros [_ [=]].
Defined.

Lemma wall_spares_other_authors_witness :
  let post i who := {|
    post_id := i; post_date := "2026-11-04T09:00:00"; content := "keep going";
    author := who; likes := 0 |} in
  post "p1" "bob"
  ∈ press (λ s, s) "alice" "" (DeleteButton "p1")
      [post "p1" "bob"; post "p2" "alice"].
Proof.
  intros post.
  destruct (wall_spares_other_authors (λ s, s) "alice" "" (DeleteButton "p1")
              [post "p1" "bob"; post "p2" "alice"] (post "p1" "bob"))
    as [_ Hdelete].
  - apply (bool_decide_unpack _). by vm_compute.
  - by left.
  - done.
  - by apply (Hdelete "p1").
Defined.

Lemma wall_button_frame_witness :
  let post i who n := {|
    post_id := i; post_date := "2026-11-04T09:00:00"; content := "keep going";
    author := who; likes := n |} in
  let data := {|
    journal_entries := []; completed_challenges := [];
    community_posts := [post "p1" "bob" 2; post "p2" "alice" 0];
    users := ∅ |} in
  ∃ sto' data',
    wall_button_pressed (λ s, s) "alice" "" (LikeButton "p1") (Stored data)
    = Ok sto'
    ∧ load_data sto' = Ok data'
    ∧ Forall (λ post, 0 ≤ likes post) (community_posts data').
Proof.
  intros post data.
  destruct (wall_button_pressed (λ s, s) "alice" "" (LikeButton "p1")
              (Stored data)) as [sto'|] eqn:Hrun; [|by vm_compute in Hrun].
  destruct (wall_button_frame (λ s, s) "alice" "" (LikeButton "p1")
              (Stored data) sto' data)
    as (data' & Hload & _ & _ & _ & _ & _ & _ & Hlikes); [done | done |].
  exists sto', data'. split_and!; [done | done |].
  apply Hlikes. repeat constructor; simpl; lia.
Defined.

Lemma post_then_like_witness :
  ∃ sto1 sto2 data2,
    post_to_community "p9" "2026-11-04T09:00:00" "keep going" "alice" Missing
    = Ok sto1
    ∧ wall_button_pressed (λ s, s) "alice" "" (LikeButton "p9") sto1 = Ok sto2
    ∧ load_data sto2 = Ok data2
    ∧ community_posts data2
      = [{| post_id := "p9"; post_date := "2026-11-04T09:00:00";
            content := "keep going"; author := "alice"; likes := 1 |}].
Proof.
  apply (post_then_like (λ s, s) "alice" "p9" "2026-11-04T09:00:00"
           "keep going" Missing empty_document); [done | done |].
  by intros ?%elem_of_nil.
Defined.

Lemma post_then_delete_witness :
  ∃ sto1,
    post_to_community "p9" "2026-11-04T09:00:00" "keep going" "alice" Missing
    = Ok sto1
    ∧ wall_button_pressed (λ s, s) "alice" "" (DeleteButton "p9") sto1
      = Ok (Stored empty_document).
Proof.
  apply (post_then_delete (λ s, s) "alice" "p9" "2026-11-04T09:00:00"
           "keep going" Missing empty_document); [done | done |].
  by intros ?%elem_of_nil.
Defined.
